(** * voice-agent-suny: the token route and the voice chat page

    A shallow embedding of [app/api/token/route.ts] (the [POST] handler that
    mints LiveKit access tokens) and of the page component ([Home] and
    [VoiceChatRoom]): the transcription stream handler, the mount effect
    with its cleanup, the End Call control and the join flow.

    JavaScript values are modelled as the code sees them after [JSON.parse];
    exceptions are explicit ([completion]); the calls into the LiveKit SDKs
    are parameters of the sections that use them. *)

From Stdlib Require Import Floats Ascii.
From stdpp Require Import gmap strings list fin_maps pretty.

Set Warnings "-register-all".
Open Scope string_scope.
Open Scope list_scope.

(** ** JavaScript values and the few operators the sources use *)
Module Js.

(** A value as produced by [JSON.parse], plus [undefined]. A number is an
    IEEE double, an object is the list of its own properties (a parsed
    object has each key once). *)
Inductive value : Type :=
| VUndefined
| VNull
| VBool (b : bool)
| VNum (x : float)
| VStr (s : string)
| VArr (items : list value)
| VObj (props : list (string * value)).

(** An abrupt completion carries the thrown value, here its message. *)
Inductive completion (A : Type) : Type :=
| Returns (a : A)
| Throws (message : string).
Arguments Returns {A} a.
Arguments Throws {A} message.

#[global] Instance completion_ret : MRet completion := fun _ a => Returns a.
#[global] Instance completion_bind : MBind completion := fun _ _ k m =>
  match m with
  | Returns a => k a
  | Throws e => Throws e
  end.

(** What the handlers leave behind besides their state: console lines, a
    blocking [alert], a call that asks the room to disconnect. *)
Inductive output : Type :=
| ConsoleError (label detail : string)
| ConsoleWarn (label detail : string)
| Alert (text : string)
| RoomDisconnect.

(** [!v] is [negb (truthy v)]: the falsy values are [undefined], [null],
    [false], [+0], [-0], [NaN] and the empty string. *)
Definition truthy (v : value) : bool :=
  match v with
  | VUndefined | VNull => false
  | VBool b => b
  | VNum x => negb (PrimFloat.is_zero x || PrimFloat.is_nan x)
  | VStr s => negb (String.eqb s "")
  | VArr _ | VObj _ => true
  end.

Fixpoint lookup_prop (k : string) (props : list (string * value)) : value :=
  match props with
  | [] => VUndefined
  | (k', v) :: rest => if String.eqb k k' then v else lookup_prop k rest
  end.

(** [v[k]] for a [v] that is neither [null] nor [undefined], at a key that
    no built-in prototype defines (the sources read [room], [username] and
    [token] only): an object answers with its own property, every other
    value with [undefined]. *)
Definition get (v : value) (k : string) : value :=
  match v with
  | VObj props => lookup_prop k props
  | _ => VUndefined
  end.

(** Whether [v] is an object with an own property [k]. *)
Definition has_field (v : value) (k : string) : bool :=
  match v with
  | VObj props => existsb (fun p => String.eqb k p.1) props
  | _ => false
  end.

Definition nullish (v : value) : bool :=
  match v with
  | VUndefined | VNull => true
  | _ => false
  end.

(** Property access [v.k]; it throws a TypeError on [null] and [undefined],
    and so does the destructuring [const { k } = v]. *)
Definition member (v : value) (k : string) : completion value :=
  match v with
  | VUndefined | VNull => Throws "TypeError"
  | _ => Returns (get v k)
  end.

(** [Array.prototype.slice(start)] with one argument. *)
Definition slice {A} (start : Z) (l : list A) : list A :=
  let len := Z.of_nat (length l) in
  let k := if (start <? 0)%Z then Z.max (len + start) 0 else Z.min start len in
  drop (Z.to_nat k) l.

(** [String.prototype.includes(needle)]: a case-sensitive substring test. *)
Fixpoint includes (needle hay : string) : bool :=
  if String.prefix needle hay then true
  else match hay with
       | EmptyString => false
       | String _ rest => includes needle rest
       end.

End Js.

(** ** [app/api/token/route.ts] *)
Module TokenRoute.
Import Js.

(** The part of [livekit-server-sdk] the route calls. [addGrant] mutates
    the token object; here it returns the object after the call. *)
Class ServerSdk : Type := {
  AccessToken : Type;
  new_AccessToken : value -> value -> value -> completion AccessToken;
  addGrant : AccessToken -> value -> completion AccessToken;
  toJwt : AccessToken -> completion string;
}.

(** The request, as far as the route reads it: what [await request.json()]
    yields (a thrown error when the body is not JSON). *)
Record NextRequest : Type := { json : completion value }.

Record Response : Type := { status : nat; body : value }.

(** [NextResponse.json(body, { status })]; the status defaults to 200. *)
Definition NextResponse_json (b : value) (init : option nat) : Response :=
  {| status := default 200 init; body := b |}.

(** [process.env.NAME]: a string when the variable is set, else [undefined]. *)
Definition process_env (env : gmap string string) (name : string) : value :=
  match env !! name with
  | Some s => VStr s
  | None => VUndefined
  end.

Definition error_body (msg : string) : value := VObj [("error", VStr msg)].
Definition token_body (token : string) : value := VObj [("token", VStr token)].

Definition token_options (username : value) : value :=
  VObj [("identity", username); ("ttl", VStr "10m")].

Definition video_grant (room : value) : value :=
  VObj [("room", room); ("roomJoin", VBool true);
        ("canPublish", VBool true); ("canSubscribe", VBool true)].

Section Route.
Context `{sdk : ServerSdk}.

(** Lines 19-31: build the token, add the grant, sign. *)
Definition mint (apiKey apiSecret room username : value) : completion string :=
  at_ ← new_AccessToken apiKey apiSecret (token_options username);
  at_ ← addGrant at_ (video_grant room);
  toJwt at_.

(** The body of the [try] block. *)
Definition POST_try (env : gmap string string) (request : NextRequest)
  : completion Response :=
  parsed ← json request;
  room ← member parsed "room";
  username ← member parsed "username";
  if negb (truthy room) || negb (truthy username) then
    mret (NextResponse_json (error_body "Room and username are required") (Some 400))
  else
    let apiKey := process_env env "LIVEKIT_API_KEY" in
    let apiSecret := process_env env "LIVEKIT_API_SECRET" in
    if negb (truthy apiKey) || negb (truthy apiSecret) then
      mret (NextResponse_json (error_body "LiveKit credentials not configured") (Some 500))
    else
      token ← mint apiKey apiSecret room username;
      mret (NextResponse_json (token_body token) None).

Definition POST (env : gmap string string) (request : NextRequest)
  : Response * list output :=
  match POST_try env request with
  | Returns response => (response, [])
  | Throws e =>
      (NextResponse_json (error_body "Failed to generate token") (Some 500),
       [ConsoleError "Error generating token:" e])
  end.

End Route.

(** A stand-in for the SDK that records what the route hands to it. *)
Record Recorded : Type := {
  rec_key : value; rec_secret : value; rec_options : value; rec_grants : list value
}.

Definition recording_sdk : ServerSdk := {|
  AccessToken := Recorded;
  new_AccessToken k s o :=
    Returns {| rec_key := k; rec_secret := s; rec_options := o; rec_grants := [] |};
  addGrant t g :=
    Returns {| rec_key := rec_key t; rec_secret := rec_secret t;
               rec_options := rec_options t; rec_grants := rec_grants t ++ [g] |};
  toJwt t :=
    match get (rec_options t) "identity" with
    | VStr who => Returns ("jwt." +:+ who)
    | _ => Returns "jwt"
    end
|}.

Definition credentials : gmap string string :=
  <["LIVEKIT_API_KEY" := "key"]> (<["LIVEKIT_API_SECRET" := "secret"]> ∅).

Definition join_request (room username : value) : NextRequest :=
  {| json := Returns (VObj [("room", room); ("username", username)]) |}.

(** A request whose body is the JSON text [null]. *)
Definition null_request : NextRequest := {| json := Returns VNull |}.

(** The three error responses and the success response of the route. *)
Definition bad_request : Response :=
  {| status := 400; body := error_body "Room and username are required" |}.
Definition not_configured : Response :=
  {| status := 500; body := error_body "LiveKit credentials not configured" |}.
Definition generation_failed : Response :=
  {| status := 500; body := error_body "Failed to generate token" |}.
Definition token_response (token : string) : Response :=
  {| status := 200; body := token_body token |}.

End TokenRoute.

(** ** [livekit-client]: the room object, as far as the page uses it *)
Module LiveKit.
Import Js.

Inductive RoomEvent : Type := Connected | Disconnected | TrackPublished | TrackUnpublished.

#[global] Instance RoomEvent_eq_dec : EqDecision RoomEvent.
Proof. solve_decision. Defined.

(** The bodies of the functions the component hands to the room. *)
Inductive code : Type :=
| SetIsConnected (b : bool)
| HandleTrackPublished
| HandleTrackUnpublished
| HandleTranscriptionStream.

(** A function object. Evaluating an arrow expression allocates a new
    object each time; [fn_id] is the identity that [===] compares, so two
    objects with the same body are still different listeners. *)
Record fn : Type := { fn_id : nat; fn_code : code }.

Definition same_fn (f g : fn) : bool := Nat.eqb (fn_id f) (fn_id g).

Record Room : Type := {
  textStreamHandlers : gmap string fn;
  listeners : RoomEvent -> list fn
}.

Definition set_listeners (e : RoomEvent) (l : list fn) (r : Room) : Room :=
  {| textStreamHandlers := textStreamHandlers r;
     listeners := fun e' => if decide (e' = e) then l else listeners r e' |}.

Definition set_handlers (m : gmap string fn) (r : Room) : Room :=
  {| textStreamHandlers := m; listeners := listeners r |}.

Fixpoint remove_first (f : fn) (l : list fn) : list fn :=
  match l with
  | [] => []
  | g :: rest => if same_fn g f then rest else g :: remove_first f rest
  end.

(** [EventEmitter.on] appends the listener. *)
Definition on (e : RoomEvent) (f : fn) (r : Room) : Room :=
  set_listeners e (listeners r e ++ [f]) r.

(** [EventEmitter.off] searches the listeners of the event from the end
    for the very object it is given and removes that one entry. *)
Definition off (e : RoomEvent) (f : fn) (r : Room) : Room :=
  set_listeners e (reverse (remove_first f (reverse (listeners r e)))) r.

(** The two text-stream calls; either may throw. *)
Class TextStreamApi : Type := {
  registerTextStreamHandler : string -> fn -> Room -> completion unit * Room;
  unregisterTextStreamHandler : string -> Room -> completion unit * Room;
}.

(** The SDK's own behaviour: a topic holds one handler, registering a
    second one throws, unregistering deletes the entry. *)
Definition livekit_text_streams : TextStreamApi := {|
  registerTextStreamHandler topic f r :=
    match textStreamHandlers r !! topic with
    | Some _ => (Throws "TypeError: a text stream handler has already been set", r)
    | None => (Returns (), set_handlers (<[topic := f]> (textStreamHandlers r)) r)
    end;
  unregisterTextStreamHandler topic r :=
    (Returns (), set_handlers (delete topic (textStreamHandlers r)) r)
|}.

Definition fresh_room : Room :=
  {| textStreamHandlers := ∅; listeners := fun _ => [] |}.

End LiveKit.

(** ** The page: [VoiceChatRoom] *)
Module VoiceChatRoom.
Import Js LiveKit.

Record ChatMessage : Type := {
  id : string;
  participant : string;
  text : string;
  timestamp : Z;
  isFinal : bool
}.

(** The component's [useState] cells. *)
Record State : Type := {
  isConnected : bool;
  chatMessages : list ChatMessage;
  isAgentTyping : bool
}.

Definition initial : State :=
  {| isConnected := false; chatMessages := []; isAgentTyping := false |}.

Definition setIsConnected (b : bool) (st : State) : State :=
  {| isConnected := b; chatMessages := chatMessages st; isAgentTyping := isAgentTyping st |}.

(** [setChatMessages] with an updater function. *)
Definition setChatMessages (f : list ChatMessage -> list ChatMessage) (st : State) : State :=
  {| isConnected := isConnected st; chatMessages := f (chatMessages st);
     isAgentTyping := isAgentTyping st |}.

Definition setIsAgentTyping (b : bool) (st : State) : State :=
  {| isConnected := isConnected st; chatMessages := chatMessages st; isAgentTyping := b |}.

(** One call of the stream handler: its two arguments and what the clock
    and the random generator answer while it runs. [attributes] is
    optional in the SDK's stream info; [math_random] is the text that
    [Math.random()] prints as inside the template string. *)
Record TextStream : Type := {
  readAll : completion string;
  attributes : option (gmap string string);
  identity : string;
  date_now : Z;
  math_random : string;
  new_date : Z
}.

(** Lines 67-80: the [try] block up to the state update. *)
Definition build_message (s : TextStream) : completion ChatMessage :=
  transcriptionText ← readAll s;
  attrs ← match attributes s with
          | Some a => Returns a
          | None => Throws "TypeError"
          end;
  let isAgentTranscription := attrs !! "lk.transcribed_track_id" in
  let speakerIdentity := identity s in
  let messageId := speakerIdentity +:+ "-" +:+ pretty (date_now s) +:+ "-" +:+ math_random s in
  mret {| id := messageId;
          participant := if includes "agent" speakerIdentity then "Agent" else "You";
          text := transcriptionText;
          timestamp := new_date s;
          isFinal := true |}.

(** Lines 82-86: the updater given to [setChatMessages]. *)
Definition push_message (message : ChatMessage) (prev : list ChatMessage)
  : list ChatMessage :=
  let newMessages := prev ++ [message] in
  slice (-50) newMessages.

Definition handleTranscriptionStream (s : TextStream) (st : State) : State * list output :=
  match build_message s with
  | Returns message =>
      let st := setChatMessages (push_message message) st in
      let st := if String.eqb (participant message) "Agent"
                then setIsAgentTyping false st else st in
      (st, [])
  | Throws e => (st, [ConsoleError "Error handling transcription stream:" e])
  end.

(** A track event: the kind of the track and whether the participant is
    [room.localParticipant]. *)
Record TrackInfo : Type := { kind : string; is_local : bool }.

Definition handleTrackPublished (t : TrackInfo) (st : State) : State :=
  if negb (is_local t) && String.eqb (kind t) "audio"
  then setIsAgentTyping true st else st.

Definition handleTrackUnpublished (t : TrackInfo) (st : State) : State :=
  if negb (is_local t) && String.eqb (kind t) "audio"
  then setIsAgentTyping false st else st.

(** The room variable of the component: a reference to the room object,
    or [undefined]. *)
Definition disconnect (room : option unit) (st : State) : State * list output :=
  let out := match room with Some _ => [RoomDisconnect] | None => [] end in
  (setIsAgentTyping false (setChatMessages (fun _ => []) st), out).

(** The End Call button is disabled while [isConnected] is false. *)
Definition click_end_call (room : option unit) (st : State) : State * list output :=
  if isConnected st then disconnect room st else (st, []).

(** The class of the paragraph that shows a message's text. *)
Definition text_className (message : ChatMessage) : string :=
  (if String.eqb (participant message) "Agent"
   then "text-sm text-blue-900 " else "text-sm text-gray-900 ")
  +:+ (if negb (isFinal message) then "italic opacity-75" else "").

(** *** The mount effect (lines 61-136)

    The effect and its cleanup run against the heap: the room object, the
    allocator of function objects and the console. A call may throw and
    still leave the heap changed. *)
Record Heap : Type := { room : Room; next_fn : nat; console : list output }.

Definition M (A : Type) : Type := Heap -> completion A * Heap.

#[global] Instance M_ret : MRet M := fun _ a h => (Returns a, h).
#[global] Instance M_bind : MBind M := fun _ _ k m h =>
  match m h with
  | (Returns a, h') => k a h'
  | (Throws e, h') => (Throws e, h')
  end.

(** [try { m } catch (error) { handler error }] *)
Definition try_catch {A} (m : M A) (handler : string -> M A) : M A := fun h =>
  match m h with
  | (Throws e, h') => handler e h'
  | done => done
  end.

Definition new_fn (c : code) : M fn := fun h =>
  (Returns {| fn_id := next_fn h; fn_code := c |},
   {| room := room h; next_fn := S (next_fn h); console := console h |}).

Definition room_do (f : Room -> Room) : M unit := fun h =>
  (Returns (), {| room := f (room h); next_fn := next_fn h; console := console h |}).

Definition room_call (f : Room -> completion unit * Room) : M unit := fun h =>
  let (outcome, r) := f (room h) in
  (outcome, {| room := r; next_fn := next_fn h; console := console h |}).

Definition console_warn (label detail : string) : M unit := fun h =>
  (Returns (), {| room := room h; next_fn := next_fn h;
                  console := console h ++ [ConsoleWarn label detail] |}).

(** What the cleanup closure captures. *)
Record Cleanup : Type := {
  captured_handleTrackPublished : fn;
  captured_handleTrackUnpublished : fn
}.

Section Effect.
Context `{api : TextStreamApi}.

Definition effect (room_ref : option unit) : M (option Cleanup) :=
  match room_ref with
  | None => mret None
  | Some _ =>
      handleTranscriptionStream ← new_fn HandleTranscriptionStream;
      handleTrackPublished ← new_fn HandleTrackPublished;
      handleTrackUnpublished ← new_fn HandleTrackUnpublished;
      try_catch
        (room_call (registerTextStreamHandler "lk.transcription" handleTranscriptionStream))
        (fun error => console_warn "Transcription handler already registered:" error);;
      connected ← new_fn (SetIsConnected true);
      room_do (on Connected connected);;
      disconnected ← new_fn (SetIsConnected false);
      room_do (on Disconnected disconnected);;
      room_do (on TrackPublished handleTrackPublished);;
      room_do (on TrackUnpublished handleTrackUnpublished);;
      mret (Some {| captured_handleTrackPublished := handleTrackPublished;
                    captured_handleTrackUnpublished := handleTrackUnpublished |})
  end.

Definition cleanup (c : Cleanup) : M unit :=
  try_catch
    (room_call (unregisterTextStreamHandler "lk.transcription"))
    (fun error => console_warn "Error unregistering transcription handler:" error);;
  connected ← new_fn (SetIsConnected true);
  room_do (off Connected connected);;
  disconnected ← new_fn (SetIsConnected false);
  room_do (off Disconnected disconnected);;
  room_do (off TrackPublished (captured_handleTrackPublished c));;
  room_do (off TrackUnpublished (captured_handleTrackUnpublished c)).

(** Mount, then unmount. *)
Definition mount_unmount (room_ref : option unit) : M unit :=
  c ← effect room_ref;
  match c with
  | Some c => cleanup c
  | None => mret ()
  end.

End Effect.

(** *** What reaches the component while it is mounted *)

(** An event the room emits, with the track it is about if there is one. *)
Inductive Emitted : Type :=
| EmitConnected
| EmitDisconnected
| EmitTrackPublished (t : TrackInfo)
| EmitTrackUnpublished (t : TrackInfo).

Definition event_of (em : Emitted) : RoomEvent :=
  match em with
  | EmitConnected => Connected
  | EmitDisconnected => Disconnected
  | EmitTrackPublished _ => TrackPublished
  | EmitTrackUnpublished _ => TrackUnpublished
  end.

(** Running a listener. A track handler is only ever attached to a track
    event; on any other event it is left out here. *)
Definition call_listener (f : fn) (em : Emitted) (st : State) : State :=
  match fn_code f, em with
  | SetIsConnected b, _ => setIsConnected b st
  | HandleTrackPublished, (EmitTrackPublished t | EmitTrackUnpublished t) =>
      handleTrackPublished t st
  | HandleTrackUnpublished, (EmitTrackPublished t | EmitTrackUnpublished t) =>
      handleTrackUnpublished t st
  | _, _ => st
  end.

(** [emit] calls the listeners of the event in the order they were added. *)
Definition emit (r : Room) (em : Emitted) (st : State) : State :=
  fold_left (fun st f => call_listener f em st) (listeners r (event_of em)) st.

(** A text stream on a topic goes to the handler registered for it. *)
Definition deliver (r : Room) (topic : string) (s : TextStream) (st : State)
  : State * list output :=
  match textStreamHandlers r !! topic with
  | Some f =>
      match fn_code f with
      | HandleTranscriptionStream => handleTranscriptionStream s st
      | _ => (st, [])
      end
  | None => (st, [])
  end.

(** What happens to the mounted component, one thing after another.
    [Incoming] is a stream handled in one piece: it arrives and its read
    settles before the next input. Reads that overlap are the subject of
    [Page] below. *)
Inductive Input : Type :=
| Incoming (topic : string) (s : TextStream)
| Emits (em : Emitted)
| EndCall.

Definition step (r : Room) (i : Input) (st : State) : State :=
  match i with
  | Incoming topic s => fst (deliver r topic s st)
  | Emits em => emit r em st
  | EndCall => fst (click_end_call (Some ()) st)
  end.

Definition run (r : Room) (inputs : list Input) (st : State) : State :=
  fold_left (fun st i => step r i st) inputs st.

(** *** The handler is [async]

    A call of [handleTranscriptionStream] starts [reader.readAll()] and is
    suspended at the [await] (line 67); nobody awaits the call, so further
    calls may start meanwhile. Everything the handler does to the state
    (lines 70-91, the clock and the random number included) happens when
    its read settles. *)

(** What the handler is called with. *)
Record Call : Type := {
  call_attributes : option (gmap string string);
  call_identity : string
}.

(** What the world answers when the read of a call settles. *)
Record Settlement : Type := {
  outcome : completion string;
  clock_for_id : Z;
  random_for_id : string;
  clock_for_timestamp : Z
}.

(** The rest of the handler, from the [await] on, as one piece. *)
Definition resumed (c : Call) (s : Settlement) : TextStream :=
  {| readAll := outcome s; attributes := call_attributes c; identity := call_identity c;
     date_now := clock_for_id s; math_random := random_for_id s;
     new_date := clock_for_timestamp s |}.

Inductive StreamEvent : Type :=
| Arrives (c : Call)
| Settles (k : nat) (s : Settlement).

(** The calls that are suspended, by the number of their arrival. *)
Record Flights : Type := { pending : gmap nat Call; calls : nat }.

(** An arrival suspends a new call; a settlement resumes the call it
    belongs to, if that call is waiting. *)
Definition schedule (e : StreamEvent) (f : Flights) : Flights * option TextStream :=
  match e with
  | Arrives c =>
      ({| pending := <[calls f := c]> (pending f); calls := S (calls f) |}, None)
  | Settles k s =>
      match pending f !! k with
      | Some c => ({| pending := delete k (pending f); calls := calls f |},
                   Some (resumed c s))
      | None => (f, None)
      end
  end.

(** The handlers a run of stream events resumes, in the order in which
    their reads settle. *)
Fixpoint resumptions (evs : list StreamEvent) (f : Flights) : list TextStream :=
  match evs with
  | [] => []
  | e :: evs =>
      match schedule e f with
      | (f', Some s) => s :: resumptions evs f'
      | (f', None) => resumptions evs f'
      end
  end.

(** The calls a run of stream events starts, in the order of arrival. *)
Definition arrivals (evs : list StreamEvent) : list Call :=
  omap (fun e => match e with Arrives c => Some c | Settles _ _ => None end) evs.

(** The mounted component with its suspended handler calls. *)
Record Page : Type := { ui : State; flights : Flights }.

Definition opened : Page :=
  {| ui := initial; flights := {| pending := ∅; calls := 0 |} |}.

Inductive Event : Type :=
| OnStream (e : StreamEvent)
| OnRoom (em : Emitted)
| OnEndCall.

Definition react (r : Room) (e : Event) (p : Page) : Page :=
  match e with
  | OnStream e =>
      match schedule e (flights p) with
      | (f', Some s) => {| ui := (handleTranscriptionStream s (ui p)).1; flights := f' |}
      | (f', None) => {| ui := ui p; flights := f' |}
      end
  | OnRoom em => {| ui := emit r em (ui p); flights := flights p |}
  | OnEndCall => {| ui := (click_end_call (Some ()) (ui p)).1; flights := flights p |}
  end.

Definition play (r : Room) (events : list Event) (p : Page) : Page :=
  fold_left (fun p e => react r e p) events p.

(** The messages a list of resumed handlers appends, in order: one whose
    [try] block throws appends nothing. *)
Definition appended (streams : list TextStream) : list ChatMessage :=
  omap (fun s => match build_message s with
                 | Returns message => Some message
                 | Throws _ => None
                 end) streams.

(** The last [n] entries of a list (all of it when it has fewer). *)
Definition last_n {A} (n : nat) (l : list A) : list A := drop (length l - n) l.

(** The room after the component has mounted on a room nobody else uses. *)
Definition fresh_heap : Heap := {| room := fresh_room; next_fn := 0; console := [] |}.

Definition mounted_room : Room :=
  room (snd (@effect livekit_text_streams (Some ()) fresh_heap)).

(** A stream from the agent, and the state of a connected component that
    has shown its text. *)
Definition agent_stream : TextStream :=
  {| readAll := Returns "Sunny here!"; attributes := Some ∅; identity := "agent-AJ42";
     date_now := 1700000000000; math_random := "0.25"; new_date := 1700000000001 |}.

Definition in_call : State :=
  run mounted_room [Emits EmitConnected; Incoming "lk.transcription" agent_stream] initial.

(** Two streams: [A] arrives first, and the read of [B] settles first. *)
Definition call_A : Call := {| call_attributes := Some ∅; call_identity := "user-1" |}.
Definition call_B : Call := {| call_attributes := Some ∅; call_identity := "agent-AJ42" |}.

Definition read_A : Settlement :=
  {| outcome := Returns "A"; clock_for_id := 1700000000040; random_for_id := "0.5";
     clock_for_timestamp := 1700000000040 |}.
Definition read_B : Settlement :=
  {| outcome := Returns "B"; clock_for_id := 1700000000020; random_for_id := "0.75";
     clock_for_timestamp := 1700000000020 |}.

Definition overlapping : list StreamEvent :=
  [Arrives call_A; Arrives call_B; Settles 1 read_B; Settles 0 read_A].

Definition agent_message : ChatMessage :=
  {| id := "agent-AJ42-1700000000000-0.25"; participant := "Agent";
     text := "Sunny here!"; timestamp := 1700000000001; isFinal := true |}.

(** The heap after the component has mounted on a fresh room and then
    unmounted. *)
Definition unmounted_heap : Heap :=
  snd (@mount_unmount livekit_text_streams (Some ()) fresh_heap).

(** A room on which somebody has already set a handler for the topic. *)
Definition taken_heap : Heap :=
  {| room := set_handlers {[ "lk.transcription" := {| fn_id := 0; fn_code := HandleTranscriptionStream |} ]}
               fresh_room;
     next_fn := 1; console := [] |}.

End VoiceChatRoom.

(** ** The page: [Home] and its join flow *)
Module Home.
Import Js.

Record State : Type := { token : value; isJoining : bool }.

Definition initial : State := {| token := VStr ""; isJoining := false |}.

Definition roomName : string := "weather-chat-room".

(** What [fetch] comes back with: a rejection, or a response with its [ok]
    flag and what [response.json()] yields. *)
Inductive FetchResult : Type :=
| Rejects (e : string)
| Resolves (ok : bool) (json : completion value).

(** The body the join flow posts. *)
Definition request_body (date_now : Z) : value :=
  VObj [("room", VStr roomName); ("username", VStr ("user-" +:+ pretty date_now))].

(** Lines 302-318: the [try] block; it yields the argument of [setToken]. *)
Definition joinRoom_try (fetch : string -> value -> FetchResult) (date_now : Z)
  : completion value :=
  match fetch "/api/token" (request_body date_now) with
  | Rejects e => Throws e
  | Resolves ok json =>
      if negb ok then Throws "Failed to get token"
      else data ← json; member data "token"
  end.

Definition joinRoom (fetch : string -> value -> FetchResult) (date_now : Z) (st : State)
  : State * list output :=
  let st := {| token := token st; isJoining := true |} in
  match joinRoom_try fetch date_now with
  | Returns t => ({| token := t; isJoining := false |}, [])
  | Throws e =>
      ({| token := token st; isJoining := false |},
       [ConsoleError "Error joining room:" e; Alert "Failed to join room. Please try again."])
  end.

(** What [Home] renders: the join card while [!token], else the room. *)
Inductive Screen : Type :=
| JoinScreen (button_disabled : bool)
| RoomScreen (token : value).

Definition render (st : State) : Screen :=
  if negb (truthy (token st)) then JoinScreen (isJoining st) else RoomScreen (token st).

(** A fetch that failed: rejected, not ok, or one whose body cannot be
    read (reading [token] off [null] throws as well). *)
Definition failed (r : FetchResult) : bool :=
  match r with
  | Rejects _ => true
  | Resolves ok json =>
      negb ok ||
      match json with
      | Throws _ => true
      | Returns (VNull | VUndefined) => true
      | Returns _ => false
      end
  end.

End Home.

(** ** What [VoiceChatRoom] renders, and the mute control *)
Module View.
Import Js LiveKit VoiceChatRoom.

(** A row of the transcript panel (lines 223-282). *)
Inductive Row : Type :=
| Placeholder
| AgentRow (key name text className : string) (time : Z)
| UserRow (key name text className : string) (time : Z)
| TypingRow.

Definition message_row (message : ChatMessage) : Row :=
  if String.eqb (participant message) "Agent"
  then AgentRow (id message) "Sunny" (text message) (text_className message)
                (timestamp message)
  else UserRow (id message) "You" (text message) (text_className message)
               (timestamp message).

(** The placeholder stands in for the whole list, typing indicator
    included, while there is no message. *)
Definition transcript_rows (st : State) : list Row :=
  if Nat.eqb (length (chatMessages st)) 0 then [Placeholder]
  else map message_row (chatMessages st)
       ++ (if isAgentTyping st then [TypingRow] else []).

(** The local participant, as far as the component reads it: its
    [isMicrophoneEnabled] flag, or nothing when there is no participant. *)
Definition isMicrophoneEnabled (localParticipant : option bool) : bool :=
  default false localParticipant.

(** The control panel (lines 174-196). *)
Record Controls : Type := {
  badge : string;
  badge_variant : string;
  mute_label : string;
  mute_variant : string;
  mute_disabled : bool;
  end_call_disabled : bool
}.

Definition controls (st : State) (localParticipant : option bool) : Controls :=
  let enabled := isMicrophoneEnabled localParticipant in
  {| badge := if isConnected st then "Connected" else "Disconnected";
     badge_variant := if isConnected st then "default" else "secondary";
     mute_label := if negb enabled then "Unmute" else "Mute";
     mute_variant := if negb enabled then "destructive" else "default";
     mute_disabled := negb (isConnected st);
     end_call_disabled := negb (isConnected st) |}.

(** The call [toggleMute] makes on the local participant. *)
Inductive MicCall : Type := SetMicrophoneEnabled (enabled : bool).

Definition toggleMute (localParticipant : option bool) : list MicCall :=
  match localParticipant with
  | Some _ => [SetMicrophoneEnabled (negb (isMicrophoneEnabled localParticipant))]
  | None => []
  end.

End View.

(** ** The component over its lifetime *)
Module Lifecycle.
Import Js LiveKit VoiceChatRoom.

(** Every listener on the room was allocated before the next function
    object will be. *)
Definition well_formed (h : Heap) : Prop :=
  forall e f, f ∈ listeners (room h) e -> fn_id f < next_fn h.

(** The four functions a mount hands to [on], by the event they go to,
    when [n] function objects had been made before. *)
Definition mount_listener (n : nat) (e : RoomEvent) : fn :=
  match e with
  | Connected => {| fn_id := n + 3; fn_code := SetIsConnected true |}
  | Disconnected => {| fn_id := n + 4; fn_code := SetIsConnected false |}
  | TrackPublished => {| fn_id := n + 1; fn_code := HandleTrackPublished |}
  | TrackUnpublished => {| fn_id := n + 2; fn_code := HandleTrackUnpublished |}
  end.

(** The heap after one mount on a room. *)
Definition mounted (h : Heap) : Heap :=
  (@effect livekit_text_streams (Some ()) h).2.

(** [n] rounds of mounting and unmounting on the same room. *)
Fixpoint cycles (n : nat) (h : Heap) : Heap :=
  match n with
  | 0 => h
  | S n => cycles n (@mount_unmount livekit_text_streams (Some ()) h).2
  end.

(** The last [Connected] or [Disconnected] event among the inputs, as the
    flag it asks for; [start] when there is none. *)
Definition last_connection (inputs : list Input) (start : bool) : bool :=
  fold_left (fun b i => match i with
                        | Emits EmitConnected => true
                        | Emits EmitDisconnected => false
                        | _ => b
                        end) inputs start.

(** An audio track published by somebody other than the local participant. *)
Definition remote_audio (t : TrackInfo) : Prop :=
  is_local t = false /\ kind t = "audio".

End Lifecycle.

(** ** The join flow against the route *)
Module Loopback.
Import Js TokenRoute Home.

(** [response.ok]: the status is in the range 200-299. *)
Definition response_ok (r : Response) : bool :=
  Nat.leb 200 (status r) && Nat.leb (status r) 299.

(** [fetch] wired to the route: the object the page stringifies is what
    [request.json()] parses, and the response carries the route's status
    and body. Any other URL is not served. *)
Definition fetch_route `{sdk : ServerSdk} (env : gmap string string)
  : string -> value -> FetchResult := fun url sent =>
  if String.eqb url "/api/token" then
    let r := (POST env {| json := Returns sent |}).1 in
    Resolves (response_ok r) (Returns (body r))
  else Resolves false (Throws "SyntaxError").

(** Whether the character occurs in the string. *)
Fixpoint has_char (c : Ascii.ascii) (s : string) : bool :=
  match s with
  | EmptyString => false
  | String d rest => if Ascii.eqb c d then true else has_char c rest
  end.

(** An SDK whose signing step throws. *)
Definition failing_sdk : ServerSdk := {|
  AccessToken := unit;
  new_AccessToken _ _ _ := Returns ();
  addGrant _ _ := Returns ();
  toJwt _ := Throws "signing failed"
|}.

End Loopback.

(** * Properties *)

(** ** The token route *)
Module TokenRouteFacts.
Import Js TokenRoute.

Lemma member_get (v : value) (k : string) :
  nullish v = false -> member v k = Returns (get v k).
Proof. by destruct v. Qed.

(** A field the body does not have reads as [undefined], which is falsy. *)
Lemma absent_is_falsy (v : value) (k : string) :
  has_field v k = false -> truthy (get v k) = false.
Proof.
  destruct v as [| | | | | |props]; try done. simpl.
  induction props as [|[k' x] props IH]; simpl; [done|].
  destruct (String.eqb k k'); [done|]. exact IH.
Qed.

Lemma process_env_falsy (env : gmap string string) (name : string) :
  truthy (process_env env name) = false <->
  env !! name = None \/ env !! name = Some "".
Proof.
  unfold process_env. destruct (env !! name) as [s|]; simpl.
  - destruct s; simpl; split; (try by right); intros [?|?]; congruence.
  - split; auto.
Qed.

Section AnySdk.
Context `{sdk : ServerSdk}.

(** The [try] block once the body has been parsed to something that can
    be destructured. *)
Lemma POST_try_parsed env request parsed :
  json request = Returns parsed -> nullish parsed = false ->
  POST_try env request =
    if negb (truthy (get parsed "room")) || negb (truthy (get parsed "username"))
    then Returns bad_request
    else if negb (truthy (process_env env "LIVEKIT_API_KEY"))
            || negb (truthy (process_env env "LIVEKIT_API_SECRET"))
    then Returns not_configured
    else token ← mint (process_env env "LIVEKIT_API_KEY")
                      (process_env env "LIVEKIT_API_SECRET")
                      (get parsed "room") (get parsed "username");
         Returns (token_response token).
Proof.
  intros Hjson Hparsed. unfold POST_try. rewrite Hjson. simpl.
  rewrite !(member_get _ _ Hparsed). simpl. reflexivity.
Qed.

(** Whatever the request, the response is one of the four. *)
Lemma POST_cases env request :
  let r := (POST env request).1 in
  r = bad_request \/ r = not_configured \/ r = generation_failed \/
  exists token, r = token_response token.
Proof.
  unfold POST, POST_try. destruct (json request) as [parsed|e]; simpl; [|auto].
  destruct (member parsed "room") as [room|e]; simpl; [|auto].
  destruct (member parsed "username") as [username|e]; simpl; [|auto].
  destruct (negb (truthy room) || negb (truthy username)); simpl; [auto|].
  destruct (negb _ || negb _); simpl; [auto|].
  destruct (mint _ _ _ _) as [token|e]; simpl; eauto.
Qed.

(** C1 (amended). For a request whose body parses to a JSON value other
    than [null]: when [room] or [username] is absent or falsy the response
    is the 400 error body; when both are truthy and [LIVEKIT_API_KEY] or
    [LIVEKIT_API_SECRET] is unset or empty it is the 500 "not configured"
    error body; when both are truthy, both variables are non-empty and the
    SDK hands back a signed token, it is a 200 object holding that token. *)
Theorem token_route_responses env request parsed :
  json request = Returns parsed -> nullish parsed = false ->
  let room := get parsed "room" in
  let username := get parsed "username" in
  let apiKey := process_env env "LIVEKIT_API_KEY" in
  let apiSecret := process_env env "LIVEKIT_API_SECRET" in
  (truthy room = false \/ truthy username = false ->
   POST env request = (bad_request, [])) /\
  (truthy room = true -> truthy username = true ->
   truthy apiKey = false \/ truthy apiSecret = false ->
   POST env request = (not_configured, [])) /\
  (truthy room = true -> truthy username = true ->
   truthy apiKey = true -> truthy apiSecret = true ->
   forall token, mint apiKey apiSecret room username = Returns token ->
   POST env request = (token_response token, [])).
Proof.
  intros Hjson Hparsed room username apiKey apiSecret.
  unfold POST. rewrite (POST_try_parsed _ _ _ Hjson Hparsed).
  fold room username apiKey apiSecret.
  split; [|split].
  - intros [-> | ->]; simpl; [done|]. by rewrite orb_true_r.
  - intros -> -> [-> | ->]; simpl; [done|]. by rewrite orb_true_r.
  - intros -> -> -> -> token ->. done.
Qed.

(** C8 (amended). Validation comes before the credential check: for a
    request whose body parses to a JSON value other than [null], a [room]
    or [username] that is absent or falsy (the empty string included) gives
    the 400 response whatever the environment holds; and whenever the
    response is the 500 "not configured" one, [room] and [username] were
    both truthy. *)
Theorem validation_precedes_credentials env request :
  (forall parsed, json request = Returns parsed -> nullish parsed = false ->
     truthy (get parsed "room") && truthy (get parsed "username") = false ->
     POST env request = (bad_request, [])) /\
  ((POST env request).1 = not_configured ->
     exists parsed, json request = Returns parsed /\
       truthy (get parsed "room") = true /\ truthy (get parsed "username") = true).
Proof.
  split.
  - intros parsed Hjson Hparsed Hfalsy.
    unfold POST. rewrite (POST_try_parsed _ _ _ Hjson Hparsed).
    apply andb_false_iff in Hfalsy as [-> | ->]; simpl; [done|].
    by rewrite orb_true_r.
  - unfold POST. destruct (json request) as [parsed|e] eqn:Hjson.
    + destruct (nullish parsed) eqn:Hparsed.
      * unfold POST_try. rewrite Hjson.
        destruct parsed; simplify_eq/=; discriminate.
      * rewrite (POST_try_parsed _ _ _ Hjson Hparsed).
        destruct (truthy (get parsed "room")) eqn:Hroom,
                 (truthy (get parsed "username")) eqn:Huser;
          simpl; try discriminate.
        intros _. exists parsed. auto.
    + unfold POST_try. rewrite Hjson. simpl. discriminate.
Qed.

(** C5. Every token the route answers with is the SDK's signature over an
    [AccessToken] built with the configured key and secret and the options
    [{ identity: username, ttl: "10m" }], to which exactly one grant was
    added, [{ room, roomJoin: true, canPublish: true, canSubscribe: true }],
    for the [room] and [username] of the request. *)
Theorem minted_token_grant env request token :
  body (POST env request).1 = token_body token ->
  exists parsed fresh granted,
    json request = Returns parsed /\
    new_AccessToken (process_env env "LIVEKIT_API_KEY")
                    (process_env env "LIVEKIT_API_SECRET")
                    (VObj [("identity", get parsed "username"); ("ttl", VStr "10m")])
      = Returns fresh /\
    addGrant fresh (VObj [("room", get parsed "room"); ("roomJoin", VBool true);
                          ("canPublish", VBool true); ("canSubscribe", VBool true)])
      = Returns granted /\
    toJwt granted = Returns token.
Proof.
  unfold POST. destruct (json request) as [parsed|e] eqn:Hjson.
  - destruct (nullish parsed) eqn:Hparsed.
    + unfold POST_try. rewrite Hjson. destruct parsed; simplify_eq/=; discriminate.
    + rewrite (POST_try_parsed _ _ _ Hjson Hparsed).
      destruct (negb _ || negb _); [discriminate|].
      destruct (negb _ || negb _); [discriminate|].
      unfold mint, token_options, video_grant.
      destruct (new_AccessToken _ _ _) as [fresh|e] eqn:Hnew; [|discriminate].
      simpl. destruct (addGrant _ _) as [granted|e] eqn:Hgrant; [|discriminate].
      simpl. destruct (toJwt granted) as [t|e] eqn:Hsign; [|discriminate].
      simpl. intros [= <-]. eauto 10.
  - unfold POST_try. rewrite Hjson. discriminate.
Qed.

End AnySdk.

(** The route on a few bodies: a numeric zero and a missing field count as
    missing, a number or an array as body has no fields at all, and a body
    that is not JSON falls to the catch-all. *)
Example room_zero :
  @POST recording_sdk credentials (join_request (VNum 0) (VStr "u")) = (bad_request, []).
Proof. reflexivity. Qed.

Example username_absent :
  @POST recording_sdk credentials {| json := Returns (VObj [("room", VStr "r")]) |}
    = (bad_request, []).
Proof. reflexivity. Qed.

Example array_body :
  @POST recording_sdk credentials {| json := Returns (VArr [VStr "r"; VStr "u"]) |}
    = (bad_request, []).
Proof. reflexivity. Qed.

Example unparsable_body :
  @POST recording_sdk credentials {| json := Throws "SyntaxError" |}
    = (generation_failed, [ConsoleError "Error generating token:" "SyntaxError"]).
Proof. reflexivity. Qed.

Example empty_key :
  @POST recording_sdk (<["LIVEKIT_API_KEY" := ""]> credentials)
    (join_request (VStr "r") (VStr "u")) = (not_configured, []).
Proof. reflexivity. Qed.

(** C1, as stated, fails on the body [null]: its [room] is missing, yet
    reading the field throws and the route answers 500, not 400. *)
Lemma null_body_is_not_a_bad_request :
  json null_request = Returns VNull /\
  has_field VNull "room" = false /\
  @POST recording_sdk credentials null_request =
    (generation_failed, [ConsoleError "Error generating token:" "TypeError"]) /\
  status (@POST recording_sdk credentials null_request).1 <> 400.
Proof. repeat split; try reflexivity. vm_compute. discriminate. Qed.

(** C8, as stated, fails on the body [null] when the credentials are
    absent too: [room] and [username] are missing and the answer is 500. *)
Lemma null_body_without_credentials :
  json null_request = Returns VNull /\
  has_field VNull "room" = false /\
  has_field VNull "username" = false /\
  (∅ : gmap string string) !! "LIVEKIT_API_KEY" = None /\
  (@POST recording_sdk ∅ null_request).1 = generation_failed /\
  (@POST recording_sdk ∅ null_request).1 <> bad_request.
Proof. repeat split; try reflexivity. vm_compute. discriminate. Qed.

Lemma token_route_responses_witness :
  @POST recording_sdk credentials (join_request (VStr "") (VStr "u")) = (bad_request, []) /\
  @POST recording_sdk ∅ (join_request (VStr "r") (VStr "u")) = (not_configured, []) /\
  @POST recording_sdk credentials (join_request (VStr "r") (VStr "u"))
    = (token_response "jwt.u", []).
Proof.
  split; [|split].
  - apply (@token_route_responses recording_sdk credentials
             (join_request (VStr "") (VStr "u")) _ eq_refl eq_refl).
    left. reflexivity.
  - apply (@token_route_responses recording_sdk ∅
             (join_request (VStr "r") (VStr "u")) _ eq_refl eq_refl);
      [reflexivity | reflexivity | left; reflexivity].
  - apply (@token_route_responses recording_sdk credentials
             (join_request (VStr "r") (VStr "u")) _ eq_refl eq_refl);
      reflexivity.
Defined.

Lemma validation_precedes_credentials_witness :
  @POST recording_sdk ∅ (join_request (VStr "") (VStr "u")) = (bad_request, []) /\
  exists parsed,
    json (join_request (VStr "r") (VStr "u")) = Returns parsed /\
    truthy (get parsed "room") = true /\ truthy (get parsed "username") = true.
Proof.
  split.
  - apply (proj1 (@validation_precedes_credentials recording_sdk ∅
                    (join_request (VStr "") (VStr "u"))) _ eq_refl eq_refl).
    reflexivity.
  - apply (proj2 (@validation_precedes_credentials recording_sdk ∅
                    (join_request (VStr "r") (VStr "u")))).
    reflexivity.
Defined.

Lemma minted_token_grant_witness :
  exists parsed fresh granted,
    json (join_request (VStr "r") (VStr "u")) = Returns parsed /\
    @new_AccessToken recording_sdk (VStr "key") (VStr "secret")
      (VObj [("identity", get parsed "username"); ("ttl", VStr "10m")]) = Returns fresh /\
    @addGrant recording_sdk fresh
      (VObj [("room", get parsed "room"); ("roomJoin", VBool true);
             ("canPublish", VBool true); ("canSubscribe", VBool true)]) = Returns granted /\
    @toJwt recording_sdk granted = Returns "jwt.u".
Proof.
  apply (@minted_token_grant recording_sdk credentials
           (join_request (VStr "r") (VStr "u")) "jwt.u").
  reflexivity.
Defined.

End TokenRouteFacts.

(** ** JavaScript helpers *)
Module JsFacts.
Import Js.

Lemma slice_last_n {A} (n : nat) (l : list A) :
  0 < n -> slice (- Z.of_nat n) l = drop (length l - n) l.
Proof.
  intros Hn. unfold slice.
  replace (- Z.of_nat n <? 0)%Z with true by (symmetry; apply Z.ltb_lt; lia).
  f_equal. lia.
Qed.

Lemma prefix_app (needle post : string) : String.prefix needle (needle +:+ post) = true.
Proof.
  induction needle as [|c needle IH]; simpl; [by destruct post|].
  destruct (Ascii.ascii_dec c c); [done|congruence].
Qed.

Lemma prefix_inv (needle hay : string) :
  String.prefix needle hay = true -> exists post, hay = needle +:+ post.
Proof.
  revert hay. induction needle as [|c needle IH]; intros hay.
  - intros _. by exists hay.
  - destruct hay as [|d hay]; simpl; [discriminate|].
    destruct (Ascii.ascii_dec c d) as [->|]; [|discriminate].
    intros [post ->]%IH. by exists post.
Qed.

Lemma includes_unfold (needle hay : string) :
  includes needle hay =
    if String.prefix needle hay then true
    else match hay with
         | EmptyString => false
         | String _ rest => includes needle rest
         end.
Proof. by destruct hay. Qed.

(** [includes] finds the needle exactly when the string splits around it. *)
Lemma includes_spec (needle hay : string) :
  includes needle hay = true <-> exists pre post, hay = pre +:+ needle +:+ post.
Proof.
  split.
  - induction hay as [|c hay IH]; rewrite includes_unfold;
      destruct (String.prefix needle _) eqn:Hp;
      try (intros _; apply prefix_inv in Hp as [post Hp]; by exists "", post).
    + discriminate.
    + intros (pre & post & ->)%IH. by exists (String c pre), post.
  - intros (pre & post & ->). induction pre as [|c pre IH].
    + change ("" +:+ needle +:+ post) with (needle +:+ post).
      by rewrite includes_unfold, prefix_app.
    + change (String c pre +:+ needle +:+ post) with (String c (pre +:+ needle +:+ post)).
      rewrite includes_unfold, IH. by destruct (String.prefix _ _).
Qed.

End JsFacts.

(** ** The transcript *)
Module TranscriptFacts.
Import Js LiveKit VoiceChatRoom JsFacts.

Lemma push_message_last_n message prev :
  push_message message prev = last_n 50 (prev ++ [message]).
Proof. unfold push_message, last_n. apply (slice_last_n 50). lia. Qed.

Lemma last_n_length {A} n (l : list A) : length (last_n n l) <= n.
Proof. unfold last_n. rewrite length_drop. lia. Qed.

Lemma last_n_suffix {A} n (l : list A) : last_n n l `suffix_of` l.
Proof. apply suffix_drop. Qed.

Lemma last_n_short {A} n (l : list A) : length l <= n -> last_n n l = l.
Proof. intros Hl. unfold last_n. by replace (length l - n) with 0 by lia. Qed.

(** Cutting early does not change what survives a later cut. *)
Lemma last_n_app_last_n {A} n (l k : list A) :
  last_n n (last_n n l ++ k) = last_n n (l ++ k).
Proof.
  unfold last_n.
  rewrite <- (drop_app_le l k (length l - n)) by lia.
  rewrite drop_drop. f_equal.
  rewrite length_drop, length_app. lia.
Qed.

(** What one call of the handler does to the list. *)
Lemma handler_chatMessages s st :
  chatMessages (handleTranscriptionStream s st).1 =
    match build_message s with
    | Returns message => last_n 50 (chatMessages st ++ [message])
    | Throws _ => chatMessages st
    end.
Proof.
  unfold handleTranscriptionStream.
  destruct (build_message s) as [message|e]; simpl; [|done].
  destruct (String.eqb (participant message) "Agent"); simpl;
    apply push_message_last_n.
Qed.

Lemma call_listener_chatMessages f em st :
  chatMessages (call_listener f em st) = chatMessages st.
Proof.
  unfold call_listener, handleTrackPublished, handleTrackUnpublished.
  destruct (fn_code f), em; simpl; try done;
    by destruct (negb (is_local t) && String.eqb (kind t) "audio").
Qed.

Lemma emit_chatMessages r em st : chatMessages (emit r em st) = chatMessages st.
Proof.
  unfold emit. generalize (listeners r (event_of em)) as fs. intros fs. revert st.
  induction fs as [|f fs IH]; intros st; simpl; [done|].
  by rewrite IH, call_listener_chatMessages.
Qed.

(** A step leaves the list as it was, empties it, or is a handler call. *)
Lemma step_chatMessages r i st :
  chatMessages (step r i st) = chatMessages st \/
  chatMessages (step r i st) = [] \/
  exists s, chatMessages (step r i st) = chatMessages (handleTranscriptionStream s st).1.
Proof.
  destruct i as [topic s|em|]; simpl.
  - unfold deliver. destruct (textStreamHandlers r !! topic) as [f|]; [|by left].
    destruct (fn_code f); eauto.
  - left. apply emit_chatMessages.
  - unfold click_end_call. destruct (isConnected st); simpl; auto.
Qed.

(** An invariant of the list that the handler and the reset keep holds in
    every state the component reaches. *)
Lemma run_invariant (P : list ChatMessage -> Prop) r :
  P [] ->
  (forall s st, P (chatMessages st) -> P (chatMessages (handleTranscriptionStream s st).1)) ->
  forall inputs st, P (chatMessages st) -> P (chatMessages (run r inputs st)).
Proof.
  intros Hnil Hhandler inputs. unfold run.
  induction inputs as [|i inputs IH]; intros st Hst; simpl; [done|].
  apply IH. destruct (step_chatMessages r i st) as [-> | [-> | [s ->]]]; auto.
Qed.

Lemma run_capped r inputs : length (chatMessages (run r inputs initial)) <= 50.
Proof.
  apply (run_invariant (fun l => length l <= 50)); simpl; [lia| |lia].
  intros s st Hst. rewrite handler_chatMessages.
  destruct (build_message s); [apply last_n_length | done].
Qed.

Lemma react_chatMessages r e p :
  chatMessages (ui (react r e p)) = chatMessages (ui p) \/
  chatMessages (ui (react r e p)) = [] \/
  exists s, chatMessages (ui (react r e p))
            = chatMessages (handleTranscriptionStream s (ui p)).1.
Proof.
  destruct e as [e|em|]; simpl.
  - destruct (schedule e (flights p)) as [f' [s|]]; simpl; eauto.
  - left. apply emit_chatMessages.
  - unfold click_end_call. destruct (isConnected (ui p)); simpl; auto.
Qed.

(** The cap holds however arrivals, settlements, room events and clicks
    interleave. *)
Lemma play_capped r events p :
  length (chatMessages (ui p)) <= 50 ->
  length (chatMessages (ui (play r events p))) <= 50.
Proof.
  unfold play. revert p.
  induction events as [|e events IH]; intros p Hp; simpl; [done|].
  apply IH. destruct (react_chatMessages r e p) as [-> | [-> | [s ->]]];
    [done | simpl; lia |].
  rewrite handler_chatMessages.
  destruct (build_message s); [apply last_n_length | done].
Qed.

(** Over a run of stream events the list takes the messages of the
    resumed handlers, in the order in which they are resumed. *)
Lemma play_streams r evs p :
  length (chatMessages (ui p)) <= 50 ->
  chatMessages (ui (play r (map OnStream evs) p)) =
    last_n 50 (chatMessages (ui p) ++ appended (resumptions evs (flights p))).
Proof.
  unfold play, appended. revert p.
  induction evs as [|e evs IH]; intros p Hp; simpl.
  - rewrite app_nil_r. symmetry. by apply last_n_short.
  - destruct (schedule e (flights p)) as [f' [s|]] eqn:Hschedule; simpl.
    + rewrite IH; simpl; rewrite handler_chatMessages.
      * destruct (build_message s) as [message|e']; [|done].
        by rewrite last_n_app_last_n, <- app_assoc.
      * destruct (build_message s); [apply last_n_length | done].
    + by rewrite IH.
Qed.

(** A stream that arrives and whose read settles before anything else
    happens is handled as one call of the handler. *)
Lemma arrive_then_settle r c s p :
  ui (play r [OnStream (Arrives c); OnStream (Settles (calls (flights p)) s)] p)
    = (handleTranscriptionStream (resumed c s) (ui p)).1.
Proof. unfold play. simpl. by rewrite lookup_insert_eq. Qed.

(** C2 (amended). The list is capped and append-only, and its order is the
    order in which the reads complete. In every state the component
    reaches it holds at most 50 entries, however handler calls overlap; a
    call changes nothing when it starts, and when its read settles it
    either throws and leaves the list as it was, or puts the new message at
    the end and keeps a suffix of the result, so what stays is neither
    reordered nor changed; and after any run of arrivals and settlements
    the list is the last 50 (all, while there are fewer) of the entries it
    held followed by the messages appended since, in the order in which
    their reads settled. *)
Theorem transcript_capped_append_only :
  (forall r inputs, length (chatMessages (run r inputs initial)) <= 50) /\
  (forall s st,
     match build_message s with
     | Returns message =>
         chatMessages (handleTranscriptionStream s st).1
           `suffix_of` (chatMessages st ++ [message]) /\
         last (chatMessages (handleTranscriptionStream s st).1) = Some message
     | Throws _ => chatMessages (handleTranscriptionStream s st).1 = chatMessages st
     end) /\
  (forall r events, length (chatMessages (ui (play r events opened))) <= 50) /\
  (forall r c p, ui (react r (OnStream (Arrives c)) p) = ui p) /\
  (forall r events evs,
     chatMessages (ui (play r (map OnStream evs) (play r events opened))) =
       last_n 50 (chatMessages (ui (play r events opened))
                  ++ appended (resumptions evs (flights (play r events opened))))) /\
  (forall r evs,
     chatMessages (ui (play r (map OnStream evs) opened))
       = last_n 50 (appended (resumptions evs (flights opened)))).
Proof.
  split; [apply run_capped|]. split; [|split; [|split; [|split]]].
  - intros s st. rewrite handler_chatMessages.
    destruct (build_message s) as [message|e]; [|done].
    split; [apply last_n_suffix|].
    unfold last_n. rewrite length_app. simpl.
    rewrite drop_app_le by lia. apply last_snoc.
  - intros r events. apply play_capped. simpl. lia.
  - done.
  - intros r events evs. apply play_streams, play_capped. simpl. lia.
  - intros r evs. by rewrite play_streams by (simpl; lia).
Qed.

(** C2, as stated, fails when two reads overlap: [A] arrives before [B],
    the read of [B] settles first, and the list shows [B] before [A]. Had
    the reads settled in the order of arrival it would show [A] first. *)
Lemma overlapping_reads_swap_order :
  map call_identity (arrivals overlapping) = ["user-1"; "agent-AJ42"] /\
  map text (chatMessages (ui (play mounted_room (map OnStream overlapping) opened)))
    = ["B"; "A"] /\
  map text (chatMessages (ui (play mounted_room (map OnStream overlapping) opened)))
    <> ["A"; "B"] /\
  map text (chatMessages (ui (play mounted_room
              (map OnStream [Arrives call_A; Arrives call_B;
                             Settles 0 read_A; Settles 1 read_B]) opened)))
    = ["A"; "B"].
Proof. repeat split; try reflexivity. vm_compute. discriminate. Qed.

(** C9. Every message the component ever shows has [isFinal] set, so its
    text is rendered with the plain class, never with the italic,
    reduced-opacity one. *)
Theorem shown_messages_are_final r inputs message :
  message ∈ chatMessages (run r inputs initial) ->
  isFinal message = true /\
  text_className message =
    (if String.eqb (participant message) "Agent"
     then "text-sm text-blue-900 " else "text-sm text-gray-900 ").
Proof.
  intros Hin.
  assert (Forall (fun m => isFinal m = true) (chatMessages (run r inputs initial)))
    as Hall.
  { apply (run_invariant (Forall (fun m => isFinal m = true))); [done| |done].
    intros s st Hst. rewrite handler_chatMessages.
    destruct (build_message s) as [m|e] eqn:Hbuild; [|done].
    unfold last_n. apply Forall_drop, Forall_app. split; [done|].
    apply Forall_singleton.
    unfold build_message in Hbuild.
    destruct (readAll s); [|discriminate]. destruct (attributes s); [|discriminate].
    by injection Hbuild as <-. }
  rewrite Forall_forall in Hall. specialize (Hall _ Hin).
  split; [done|]. unfold text_className. rewrite Hall. simpl.
  by destruct (String.eqb (participant message) "Agent").
Qed.

Lemma shown_messages_are_final_witness :
  agent_message ∈ chatMessages in_call /\
  isFinal agent_message = true /\
  text_className agent_message = "text-sm text-blue-900 ".
Proof.
  assert (agent_message ∈ chatMessages in_call) as Hin
    by (vm_compute; apply list_elem_of_here).
  split; [exact Hin|].
  exact (shown_messages_are_final mounted_room
           [Emits EmitConnected; Incoming "lk.transcription" agent_stream]
           agent_message Hin).
Defined.

(** C10. The label of a message the handler builds is ['Agent'] when the
    speaker's identity contains ['agent'] and ['You'] when it does not;
    nothing else about the stream enters it. *)
Theorem source_label s message :
  build_message s = Returns message ->
  (participant message = "Agent" /\
   exists pre post, identity s = pre +:+ "agent" +:+ post) \/
  (participant message = "You" /\
   ~ exists pre post, identity s = pre +:+ "agent" +:+ post).
Proof.
  unfold build_message.
  destruct (readAll s); [|discriminate]. destruct (attributes s); [|discriminate].
  simpl. intros [= <-]. simpl.
  destruct (includes "agent" (identity s)) eqn:Hinc.
  - left. split; [done|]. by apply includes_spec.
  - right. split; [done|]. intros Hsplit%includes_spec. congruence.
Qed.

Lemma source_label_witness :
  build_message agent_stream = Returns agent_message /\
  ((participant agent_message = "Agent" /\
    exists pre post, identity agent_stream = pre +:+ "agent" +:+ post) \/
   (participant agent_message = "You" /\
    ~ exists pre post, identity agent_stream = pre +:+ "agent" +:+ post)).
Proof.
  split; [reflexivity|].
  apply (source_label agent_stream agent_message). reflexivity.
Defined.

End TranscriptFacts.

(** ** Disconnecting *)
Module DisconnectFacts.
Import Js LiveKit VoiceChatRoom TranscriptFacts.

(** C3 (amended). The End Call control discards the transcript: the
    [disconnect] function always leaves [chatMessages] empty, and so does a
    click on the enabled button. A [Disconnected] event from the room only
    clears the connected flag; the transcript stays as it was. *)
Theorem end_call_discards_transcript :
  (forall room_ref st, chatMessages (disconnect room_ref st).1 = []) /\
  (forall r st, isConnected st = true -> chatMessages (step r EndCall st) = []) /\
  (forall st,
     isConnected (step mounted_room (Emits EmitDisconnected) st) = false /\
     chatMessages (step mounted_room (Emits EmitDisconnected) st) = chatMessages st).
Proof.
  split; [done|]. split.
  - intros r st Hst. simpl. unfold click_end_call. by rewrite Hst.
  - intros st. split; [done|]. apply emit_chatMessages.
Qed.

Lemma end_call_discards_transcript_witness :
  isConnected in_call = true /\ chatMessages in_call <> [] /\
  chatMessages (step mounted_room EndCall in_call) = [].
Proof.
  split; [reflexivity|]. split; [vm_compute; discriminate|].
  apply (proj1 (proj2 end_call_discards_transcript) mounted_room in_call).
  reflexivity.
Defined.

(** C3, as stated, fails for a disconnect that the platform starts: the
    component goes from connected to disconnected and still shows the
    message it had. *)
Lemma platform_disconnect_keeps_transcript :
  isConnected in_call = true /\
  isConnected (step mounted_room (Emits EmitDisconnected) in_call) = false /\
  chatMessages (step mounted_room (Emits EmitDisconnected) in_call) = [agent_message] /\
  chatMessages (step mounted_room (Emits EmitDisconnected) in_call) <> [].
Proof. repeat split; try reflexivity. vm_compute. discriminate. Qed.

End DisconnectFacts.

(** ** The mount effect and its cleanup *)
Module MountFacts.
Import Js LiveKit VoiceChatRoom.

(** C4, on the code: after mounting on a fresh room and unmounting, the
    stream handler and the two track listeners are gone, but the
    [Connected] and [Disconnected] listeners added at mount are still
    attached, since [off] was given two newly made functions. *)
Theorem cleanup_leaves_connection_listeners :
  textStreamHandlers (room unmounted_heap) !! "lk.transcription" = None /\
  listeners (room unmounted_heap) TrackPublished = [] /\
  listeners (room unmounted_heap) TrackUnpublished = [] /\
  listeners (room unmounted_heap) Connected
    = [{| fn_id := 3; fn_code := SetIsConnected true |}] /\
  listeners (room unmounted_heap) Disconnected
    = [{| fn_id := 4; fn_code := SetIsConnected false |}] /\
  listeners (room unmounted_heap) Connected = listeners mounted_room Connected /\
  listeners (room unmounted_heap) Disconnected = listeners mounted_room Disconnected.
Proof. repeat split; reflexivity. Qed.

Lemma remove_first_keeps (f g : fn) (l : list fn) :
  same_fn g f = false -> g ∈ l -> g ∈ remove_first f l.
Proof.
  intros Hne. induction l as [|x l IH]; simpl; [done|].
  intros Hin. destruct (same_fn x f) eqn:Hx.
  - apply elem_of_cons in Hin as [-> | Hin]; [congruence | done].
  - apply elem_of_cons in Hin as [-> | Hin]; [left | right; auto].
Qed.

(** [off] with a function that is not [g] leaves [g] attached. *)
Lemma off_keeps (e : RoomEvent) (f g : fn) (r : Room) :
  same_fn g f = false -> g ∈ listeners r e -> g ∈ listeners (off e f r) e.
Proof.
  intros Hne Hin. unfold off, set_listeners. simpl.
  destruct (decide (e = e)); [|done].
  apply elem_of_reverse, remove_first_keeps; [done|]. by apply elem_of_reverse.
Qed.

(** On any room, the [Connected] listener added at mount outlives the
    cleanup: the function [off] is given is the sixth one allocated, the
    listener is the fourth. *)
Lemma connected_listener_survives (h : Heap) :
  {| fn_id := next_fn h + 3; fn_code := SetIsConnected true |}
    ∈ listeners (room (@mount_unmount livekit_text_streams (Some ()) h).2) Connected.
Proof.
  unfold mount_unmount, effect, cleanup, mbind, M_bind, try_catch, room_call, new_fn,
    room_do, console_warn.
  simpl. destruct (textStreamHandlers (room h) !! "lk.transcription"); simpl;
    (apply elem_of_reverse, remove_first_keeps;
     [unfold same_fn; simpl; apply Nat.eqb_neq; lia|]);
    apply elem_of_reverse, elem_of_app; right;
    replace (next_fn h + 3) with (S (S (S (next_fn h)))) by lia;
    apply list_elem_of_here.
Qed.

(** After the unmount a [Connected] event still reaches the component's
    setter through the listener that was left behind. *)
Example stale_listener_still_called :
  isConnected (emit (room unmounted_heap) EmitConnected initial) = true.
Proof. reflexivity. Qed.

Section AnyApi.
Context `{api : TextStreamApi}.

(** The mount effect on a room: it returns normally, with a warning in
    the console exactly when the registration threw. *)
Lemma effect_returns h :
  exists c h',
    effect (Some ()) h = (Returns (Some c), h') /\
    console h' = console h ++
      match (registerTextStreamHandler "lk.transcription"
               {| fn_id := next_fn h; fn_code := HandleTranscriptionStream |}
               (room h)).1 with
      | Returns _ => []
      | Throws e => [ConsoleWarn "Transcription handler already registered:" e]
      end.
Proof.
  unfold effect, mbind, M_bind, try_catch, room_call, new_fn. simpl.
  destruct (registerTextStreamHandler _ _ _) as [[[]|e] r]; simpl;
    eexists _, _; (split; [reflexivity|]); simpl; by rewrite ?app_nil_r.
Qed.

Lemma cleanup_returns c h :
  exists h',
    cleanup c h = (Returns (), h') /\
    console h' = console h ++
      match (unregisterTextStreamHandler "lk.transcription" (room h)).1 with
      | Returns _ => []
      | Throws e => [ConsoleWarn "Error unregistering transcription handler:" e]
      end.
Proof.
  unfold cleanup, mbind, M_bind, try_catch, room_call, new_fn. simpl.
  destruct (unregisterTextStreamHandler _ _) as [[[]|e] r]; simpl;
    eexists; (split; [reflexivity|]); simpl; by rewrite ?app_nil_r.
Qed.

(** C7. Whatever the two text-stream calls do, the mount effect and the
    cleanup return normally: a throw from [registerTextStreamHandler] or
    [unregisterTextStreamHandler] is caught, and all it leaves is one
    warning line in the console. *)
Theorem text_stream_failures_are_logged room_ref c h :
  (exists result h',
     effect room_ref h = (Returns result, h') /\
     console h' = console h ++
       match room_ref with
       | None => []
       | Some _ =>
           match (registerTextStreamHandler "lk.transcription"
                    {| fn_id := next_fn h; fn_code := HandleTranscriptionStream |}
                    (room h)).1 with
           | Returns _ => []
           | Throws e => [ConsoleWarn "Transcription handler already registered:" e]
           end
       end) /\
  (exists h',
     cleanup c h = (Returns (), h') /\
     console h' = console h ++
       match (unregisterTextStreamHandler "lk.transcription" (room h)).1 with
       | Returns _ => []
       | Throws e => [ConsoleWarn "Error unregistering transcription handler:" e]
       end).
Proof.
  split; [|apply cleanup_returns].
  destruct room_ref as [[]|].
  - destruct (effect_returns h) as (c' & h' & Heffect & Hconsole). eauto.
  - exists None, h. split; [done|]. by rewrite app_nil_r.
Qed.

End AnyApi.

(** Mounting on a room whose topic is taken: the registration throws, the
    effect still returns, and the console holds the warning. *)
Example effect_on_taken_topic :
  (@effect livekit_text_streams (Some ()) taken_heap).1
    = Returns (Some {| captured_handleTrackPublished :=
                         {| fn_id := 2; fn_code := HandleTrackPublished |};
                       captured_handleTrackUnpublished :=
                         {| fn_id := 3; fn_code := HandleTrackUnpublished |} |}) /\
  console (@effect livekit_text_streams (Some ()) taken_heap).2
    = [ConsoleWarn "Transcription handler already registered:"
         "TypeError: a text stream handler has already been set"].
Proof. split; reflexivity. Qed.

End MountFacts.

(** ** The join flow *)
Module HomeFacts.
Import Js Home.

(** C6. When the token fetch fails (the request is rejected, the response
    is not ok, or reading its body throws) the user gets the blocking
    alert, the token is left as it was, and a page that showed the join
    screen shows it again, with the button enabled. *)
Theorem failed_fetch_alerts fetch date_now st :
  failed (fetch "/api/token" (request_body date_now)) = true ->
  Alert "Failed to join room. Please try again." ∈ (joinRoom fetch date_now st).2 /\
  token (joinRoom fetch date_now st).1 = token st /\
  (truthy (token st) = false ->
   render (joinRoom fetch date_now st).1 = JoinScreen false).
Proof.
  intros Hfailed.
  assert (exists e, joinRoom_try fetch date_now = Throws e) as [e He].
  { unfold joinRoom_try.
    destruct (fetch _ _) as [e|ok json]; [by eexists|].
    destruct ok; simpl in *; [|by eexists].
    destruct json as [data|e]; simpl; [|by eexists].
    destruct data; simplify_eq/=; by eexists. }
  unfold joinRoom. rewrite He. simpl.
  split; [apply list_elem_of_further, list_elem_of_here|].
  split; [done|].
  intros Hunset. unfold render. simpl. by rewrite Hunset.
Qed.

Lemma failed_fetch_alerts_witness :
  Alert "Failed to join room. Please try again."
    ∈ (joinRoom (fun _ _ => Resolves false (Returns VNull)) 1700000000000 initial).2 /\
  token (joinRoom (fun _ _ => Resolves false (Returns VNull)) 1700000000000 initial).1
    = VStr "" /\
  render (joinRoom (fun _ _ => Resolves false (Returns VNull)) 1700000000000 initial).1
    = JoinScreen false.
Proof.
  destruct (failed_fetch_alerts (fun _ _ => Resolves false (Returns VNull))
              1700000000000 initial eq_refl) as (Halert & Htoken & Hrender).
  split; [exact Halert|]. split; [exact Htoken|]. exact (Hrender eq_refl).
Defined.

End HomeFacts.

(** ** More on the token route *)
Module TokenRouteMore.
Import Js TokenRoute Loopback TokenRouteFacts.

Section AnySdk.
Context `{sdk : ServerSdk}.

(** X1. The route always answers, and with one of four fixed shapes: the
    400, the "not configured" 500, a 200 holding the signed token, or the
    generic 500. Only the generic 500 writes to the console; what was
    thrown goes there and never into the response. *)
Theorem route_always_answers env request :
  POST env request = (bad_request, []) \/
  POST env request = (not_configured, []) \/
  (exists token, POST env request = (token_response token, [])) \/
  (exists e, POST env request =
     (generation_failed, [ConsoleError "Error generating token:" e])).
Proof.
  unfold POST, POST_try. destruct (json request) as [parsed|e]; simpl; [|eauto 6].
  destruct (member parsed "room") as [room|e]; simpl; [|eauto 6].
  destruct (member parsed "username") as [username|e]; simpl; [|eauto 6].
  destruct (negb (truthy room) || negb (truthy username)); simpl; [auto|].
  destruct (negb _ || negb _); simpl; [auto|].
  destruct (mint _ _ _ _) as [token|e]; simpl; eauto 6.
Qed.

(** X2. When the request and the credentials are in order but the SDK
    throws while the token is built or signed, the client gets the generic
    500 and the SDK's message goes to the console. *)
Theorem sdk_failure_is_generic env request parsed e :
  json request = Returns parsed -> nullish parsed = false ->
  truthy (get parsed "room") = true -> truthy (get parsed "username") = true ->
  truthy (process_env env "LIVEKIT_API_KEY") = true ->
  truthy (process_env env "LIVEKIT_API_SECRET") = true ->
  mint (process_env env "LIVEKIT_API_KEY") (process_env env "LIVEKIT_API_SECRET")
       (get parsed "room") (get parsed "username") = Throws e ->
  POST env request = (generation_failed, [ConsoleError "Error generating token:" e]).
Proof.
  intros Hjson Hparsed Hroom Huser Hkey Hsecret Hmint.
  unfold POST. rewrite (POST_try_parsed _ _ _ Hjson Hparsed).
  by rewrite Hroom, Huser, Hkey, Hsecret, Hmint.
Qed.

(** X3. Of the body the route reads [room] and [username] and nothing
    else: two bodies that agree on both get the same answer. *)
Theorem only_room_and_username_matter env request1 request2 parsed1 parsed2 :
  json request1 = Returns parsed1 -> json request2 = Returns parsed2 ->
  nullish parsed1 = false -> nullish parsed2 = false ->
  get parsed1 "room" = get parsed2 "room" ->
  get parsed1 "username" = get parsed2 "username" ->
  POST env request1 = POST env request2.
Proof.
  intros Hjson1 Hjson2 Hparsed1 Hparsed2 Hroom Huser.
  unfold POST.
  rewrite (POST_try_parsed _ _ _ Hjson1 Hparsed1), (POST_try_parsed _ _ _ Hjson2 Hparsed2).
  by rewrite Hroom, Huser.
Qed.

(** X4. Of the environment the route reads [LIVEKIT_API_KEY] and
    [LIVEKIT_API_SECRET] and nothing else. *)
Theorem only_two_variables_matter (env1 env2 : gmap string string) request :
  env1 !! "LIVEKIT_API_KEY" = env2 !! "LIVEKIT_API_KEY" ->
  env1 !! "LIVEKIT_API_SECRET" = env2 !! "LIVEKIT_API_SECRET" ->
  POST env1 request = POST env2 request.
Proof.
  intros Hkey Hsecret. unfold POST, POST_try, process_env.
  by rewrite Hkey, Hsecret.
Qed.

(** X5. A body that is not JSON, and a body that is [null], never reach
    the validation or the credential check: the answer is the generic 500
    whatever the environment holds. *)
Theorem undestructurable_body_is_generic env request :
  (forall e, json request = Throws e ->
     POST env request = (generation_failed, [ConsoleError "Error generating token:" e])) /\
  (forall parsed, json request = Returns parsed -> nullish parsed = true ->
     POST env request =
       (generation_failed, [ConsoleError "Error generating token:" "TypeError"])).
Proof.
  split.
  - intros e Hjson. unfold POST, POST_try. by rewrite Hjson.
  - intros parsed Hjson Hparsed. unfold POST, POST_try. rewrite Hjson.
    by destruct parsed.
Qed.

End AnySdk.

Lemma sdk_failure_is_generic_witness :
  @POST failing_sdk credentials (join_request (VStr "r") (VStr "u"))
    = (generation_failed, [ConsoleError "Error generating token:" "signing failed"]).
Proof.
  apply (@sdk_failure_is_generic failing_sdk credentials
           (join_request (VStr "r") (VStr "u")) _ "signing failed" eq_refl);
    reflexivity.
Defined.

Lemma only_room_and_username_matter_witness :
  @POST recording_sdk credentials (join_request (VStr "r") (VStr "u")) =
  @POST recording_sdk credentials
    {| json := Returns (VObj [("admin", VBool true); ("username", VStr "u");
                              ("room", VStr "r")]) |}.
Proof.
  apply (@only_room_and_username_matter recording_sdk credentials
           (join_request (VStr "r") (VStr "u"))
           {| json := Returns (VObj [("admin", VBool true); ("username", VStr "u");
                                     ("room", VStr "r")]) |}
           (VObj [("room", VStr "r"); ("username", VStr "u")])
           (VObj [("admin", VBool true); ("username", VStr "u"); ("room", VStr "r")]));
    reflexivity.
Defined.

Lemma only_two_variables_matter_witness :
  @POST recording_sdk credentials (join_request (VStr "r") (VStr "u")) =
  @POST recording_sdk (<["LIVEKIT_URL" := "wss://example.livekit.cloud"]> credentials)
    (join_request (VStr "r") (VStr "u")).
Proof.
  apply (@only_two_variables_matter recording_sdk); reflexivity.
Defined.

Lemma undestructurable_body_is_generic_witness :
  @POST recording_sdk ∅ {| json := Throws "SyntaxError" |}
    = (generation_failed, [ConsoleError "Error generating token:" "SyntaxError"]) /\
  @POST recording_sdk ∅ null_request
    = (generation_failed, [ConsoleError "Error generating token:" "TypeError"]).
Proof.
  split.
  - apply (proj1 (@undestructurable_body_is_generic recording_sdk ∅
                    {| json := Throws "SyntaxError" |})). reflexivity.
  - apply (proj2 (@undestructurable_body_is_generic recording_sdk ∅ null_request)
             VNull); reflexivity.
Defined.

End TokenRouteMore.

(** ** More on the join flow *)
Module JoinFacts.
Import Js TokenRoute VoiceChatRoom Home Loopback JsFacts TokenRouteFacts.

(** X6. The join flow raises its alert exactly when the fetch failed, and
    whatever happened the button is enabled again when it is over. *)
Theorem alert_exactly_on_failure fetch date_now st :
  (Alert "Failed to join room. Please try again." ∈ (joinRoom fetch date_now st).2
   <-> failed (fetch "/api/token" (request_body date_now)) = true) /\
  isJoining (joinRoom fetch date_now st).1 = false.
Proof.
  unfold joinRoom, joinRoom_try, failed.
  destruct (fetch _ _) as [e|ok json]; simpl.
  - split; [|done]. split; [done|]. intros _. apply list_elem_of_further, list_elem_of_here.
  - destruct ok; simpl.
    + destruct json as [data|e]; simpl.
      * destruct data; simpl; (split; [|done]); split; try done;
          try (intros _; apply list_elem_of_further, list_elem_of_here);
          intros Hin; by apply elem_of_nil in Hin.
      * split; [|done]. split; [done|]. intros _.
        apply list_elem_of_further, list_elem_of_here.
    + split; [|done]. split; [done|]. intros _.
      apply list_elem_of_further, list_elem_of_here.
Qed.

(** X7. An ok response whose body is not [null] is trusted as it is: its
    [token] field becomes the token, with no alert and no console line. A
    truthy token opens the room; a missing or empty one leaves the join
    screen up, silently. *)
Theorem ok_response_sets_token fetch date_now st data :
  fetch "/api/token" (request_body date_now) = Resolves true (Returns data) ->
  nullish data = false ->
  joinRoom fetch date_now st = ({| token := get data "token"; isJoining := false |}, []) /\
  render (joinRoom fetch date_now st).1 =
    (if truthy (get data "token") then RoomScreen (get data "token")
     else JoinScreen false).
Proof.
  intros Hfetch Hdata. unfold joinRoom, joinRoom_try. rewrite Hfetch. simpl.
  rewrite (member_get _ _ Hdata). simpl. split; [done|].
  unfold render. simpl. by destruct (truthy (get data "token")).
Qed.

Lemma ok_response_sets_token_witness :
  joinRoom (fun _ _ => Resolves true (Returns (VObj []))) 1700000000000 initial
    = ({| token := VUndefined; isJoining := false |}, []) /\
  render (joinRoom (fun _ _ => Resolves true (Returns (VObj []))) 1700000000000 initial).1
    = JoinScreen false.
Proof.
  apply (ok_response_sets_token (fun _ _ => Resolves true (Returns (VObj [])))
           1700000000000 initial (VObj []) eq_refl eq_refl).
Defined.

Section AnySdk.
Context `{sdk : ServerSdk}.

(** X8. What the join flow posts always passes the route's validation:
    the room name is fixed and the username starts with [user-], so the
    route never answers it with the 400. *)
Theorem join_request_is_never_bad env date_now :
  (POST env {| json := Returns (request_body date_now) |}).1 <> bad_request.
Proof.
  unfold POST.
  rewrite (POST_try_parsed env {| json := Returns (request_body date_now) |}
               (request_body date_now) eq_refl eq_refl).
  simpl. destruct (negb _ || negb _); [discriminate|].
  destruct (mint _ _ _ _); discriminate.
Qed.

(** X9. The join flow against a configured route: when the SDK signs a
    non-empty token, the page stores it and shows the room, with no alert. *)
Theorem join_through_route env date_now signed :
  truthy (process_env env "LIVEKIT_API_KEY") = true ->
  truthy (process_env env "LIVEKIT_API_SECRET") = true ->
  mint (process_env env "LIVEKIT_API_KEY") (process_env env "LIVEKIT_API_SECRET")
       (get (request_body date_now) "room") (get (request_body date_now) "username")
    = Returns signed ->
  signed <> "" ->
  joinRoom (fetch_route env) date_now initial
    = ({| token := VStr signed; isJoining := false |}, []) /\
  render (joinRoom (fetch_route env) date_now initial).1 = RoomScreen (VStr signed).
Proof.
  intros Hkey Hsecret Hmint Hsigned.
  assert (fetch_route env "/api/token" (request_body date_now)
          = Resolves true (Returns (token_body signed))) as Hfetch.
  { unfold fetch_route. simpl. unfold POST.
    rewrite (POST_try_parsed env {| json := Returns (request_body date_now) |}
               (request_body date_now) eq_refl eq_refl).
    rewrite Hkey, Hsecret.
    change (negb (truthy (get (request_body date_now) "room"))) with false.
    change (negb (truthy (get (request_body date_now) "username"))) with false.
    simpl orb. cbv iota. by rewrite Hmint. }
  destruct (ok_response_sets_token _ date_now initial _ Hfetch eq_refl) as [Hjoin Hrender].
  split; [exact Hjoin|]. rewrite Hrender. simpl.
  destruct signed; [done|]. reflexivity.
Qed.

(** X10. The join flow against a route without credentials: the 500 comes
    back as a failed fetch, so the user gets the alert and stays on the
    join screen. *)
Theorem join_without_credentials env date_now :
  truthy (process_env env "LIVEKIT_API_KEY") = false \/
  truthy (process_env env "LIVEKIT_API_SECRET") = false ->
  Alert "Failed to join room. Please try again."
    ∈ (joinRoom (fetch_route env) date_now initial).2 /\
  render (joinRoom (fetch_route env) date_now initial).1 = JoinScreen false.
Proof.
  intros Hmissing.
  assert (fetch_route env "/api/token" (request_body date_now)
          = Resolves false (Returns (body not_configured))) as Hfetch.
  { unfold fetch_route. simpl.
    destruct (token_route_responses env {| json := Returns (request_body date_now) |}
                (request_body date_now) eq_refl eq_refl) as (_ & Hcred & _).
    by rewrite (Hcred eq_refl eq_refl Hmissing). }
  unfold joinRoom, joinRoom_try. rewrite Hfetch. simpl.
  split; [apply list_elem_of_further, list_elem_of_here | done].
Qed.

End AnySdk.

Lemma join_through_route_witness :
  joinRoom (@fetch_route recording_sdk credentials) 1700000000000 initial
    = ({| token := VStr "jwt.user-1700000000000"; isJoining := false |}, []) /\
  render (joinRoom (@fetch_route recording_sdk credentials) 1700000000000 initial).1
    = RoomScreen (VStr "jwt.user-1700000000000").
Proof.
  apply (@join_through_route recording_sdk credentials 1700000000000
           "jwt.user-1700000000000"); try reflexivity. discriminate.
Defined.

Lemma join_without_credentials_witness :
  Alert "Failed to join room. Please try again."
    ∈ (joinRoom (@fetch_route recording_sdk ∅) 1700000000000 initial).2 /\
  render (joinRoom (@fetch_route recording_sdk ∅) 1700000000000 initial).1
    = JoinScreen false.
Proof. apply (@join_without_credentials recording_sdk ∅). left. reflexivity. Defined.

(** The digits of a number hold no letter. *)
Lemma pretty_N_go_no_a (x : N) (s : string) :
  has_char "a"%char (pretty_N_go x s) = has_char "a"%char s.
Proof.
  revert s. induction (N.lt_wf_0 x) as [x _ IH]; intros s.
  assert (x = 0 \/ 0 < x)%N as [-> | Hpos] by lia.
  - by rewrite pretty_N_go_0.
  - rewrite pretty_N_go_step by done. rewrite IH by (by apply N.div_lt).
    unfold pretty_N_char. by repeat case_match.
Qed.

Lemma has_char_app c (pre post : string) :
  has_char c (pre +:+ post) = has_char c pre || has_char c post.
Proof.
  induction pre as [|d pre IH]; simpl; [done|].
  by destruct (Ascii.eqb c d).
Qed.

Lemma pretty_Z_no_a (z : Z) : has_char "a"%char (pretty z) = false.
Proof.
  destruct z as [|p|p]; [done| |];
    unfold pretty, pretty_Z, pretty, pretty_positive, pretty, pretty_N;
    rewrite ?has_char_app; simpl; by rewrite pretty_N_go_no_a.
Qed.

(** A string that contains the needle contains its first character. *)
Lemma includes_first_char c needle hay :
  includes (String c needle) hay = true -> has_char c hay = true.
Proof.
  intros (pre & post & ->)%includes_spec.
  rewrite has_char_app. apply orb_true_iff. right.
  change (String c needle +:+ post) with (String c (needle +:+ post)).
  simpl. by rewrite Ascii.eqb_refl.
Qed.

(** X11. Whenever the join flow ran, the identity it chose does not
    contain ['agent'], so a transcription that carries it is labelled
    ['You']. *)
Theorem joined_user_is_labelled_You date_now s message :
  get (request_body date_now) "username" = VStr (identity s) ->
  build_message s = Returns message ->
  participant message = "You".
Proof.
  intros Hname Hbuild. simpl in Hname. injection Hname as Hname.
  assert (includes "agent" (identity s) = false) as Hinc.
  { destruct (includes "agent" (identity s)) eqn:Hinc; [|done].
    apply includes_first_char in Hinc. rewrite <- Hname in Hinc.
    rewrite has_char_app, pretty_Z_no_a in Hinc. discriminate. }
  unfold build_message in Hbuild.
  destruct (readAll s); [|discriminate]. destruct (attributes s); [|discriminate].
  simpl in Hbuild. injection Hbuild as <-. simpl. by rewrite Hinc.
Qed.

Lemma joined_user_is_labelled_You_witness :
  get (request_body 1700000000000) "username" = VStr "user-1700000000000" /\
  build_message {| readAll := Returns "hello"; attributes := Some ∅;
                   identity := "user-1700000000000"; date_now := 1700000000500;
                   math_random := "0.75"; new_date := 1700000000501 |}
    = Returns {| id := "user-1700000000000-1700000000500-0.75"; participant := "You";
                 text := "hello"; timestamp := 1700000000501; isFinal := true |} /\
  participant {| id := "user-1700000000000-1700000000500-0.75"; participant := "You";
                 text := "hello"; timestamp := 1700000000501; isFinal := true |}
    = "You".
Proof.
  split; [reflexivity|]. split; [reflexivity|].
  apply (joined_user_is_labelled_You 1700000000000
           {| readAll := Returns "hello"; attributes := Some ∅;
              identity := "user-1700000000000"; date_now := 1700000000500;
              math_random := "0.75"; new_date := 1700000000501 |});
    reflexivity.
Defined.

End JoinFacts.

(** ** More on the component's state *)
Module ComponentFacts.
Import Js LiveKit VoiceChatRoom View Lifecycle JsFacts TranscriptFacts.

(** X12. A call of the stream handler either appends and stays silent, or
    fails, writes one [console.error] line and leaves every piece of state
    as it was. It fails exactly when reading the stream throws or the
    stream carries no attributes. *)
Theorem handler_failure_changes_nothing s st :
  match readAll s, attributes s with
  | Returns _, Some _ =>
      (handleTranscriptionStream s st).2 = [] /\
      exists message, build_message s = Returns message
  | Returns _, None =>
      handleTranscriptionStream s st =
        (st, [ConsoleError "Error handling transcription stream:" "TypeError"])
  | Throws e, _ =>
      handleTranscriptionStream s st =
        (st, [ConsoleError "Error handling transcription stream:" e])
  end.
Proof.
  unfold handleTranscriptionStream, build_message.
  destruct (readAll s) as [transcript|e]; simpl; [|done].
  destruct (attributes s) as [attrs|]; simpl; [|done].
  split; [done|]. eauto.
Qed.

(** X13. The handler looks at whether the stream has attributes, not at
    what they hold: [lk.transcribed_track_id] is read and then unused, so
    two streams that differ only there are handled alike. *)
Theorem attributes_content_is_ignored read attrs1 attrs2 who now random date st :
  handleTranscriptionStream
    {| readAll := read; attributes := Some attrs1; identity := who;
       date_now := now; math_random := random; new_date := date |} st =
  handleTranscriptionStream
    {| readAll := read; attributes := Some attrs2; identity := who;
       date_now := now; math_random := random; new_date := date |} st.
Proof.
  unfold handleTranscriptionStream, build_message. simpl. by destruct read.
Qed.

(** X14. A message from the agent puts the typing indicator out; a message
    from anyone else leaves it as it is. Neither touches the connection
    flag. *)
Theorem agent_message_clears_typing s st message :
  build_message s = Returns message ->
  isAgentTyping (handleTranscriptionStream s st).1 =
    (if includes "agent" (identity s) then false else isAgentTyping st) /\
  isConnected (handleTranscriptionStream s st).1 = isConnected st.
Proof.
  intros Hbuild. unfold handleTranscriptionStream. rewrite Hbuild.
  unfold build_message in Hbuild.
  destruct (readAll s); [|discriminate]. destruct (attributes s); [|discriminate].
  simpl in Hbuild. injection Hbuild as <-. simpl.
  by destruct (includes "agent" (identity s)).
Qed.

Lemma agent_message_clears_typing_witness :
  build_message agent_stream = Returns agent_message /\
  isAgentTyping (handleTranscriptionStream agent_stream
                   {| isConnected := true; chatMessages := []; isAgentTyping := true |}).1
    = false /\
  isConnected (handleTranscriptionStream agent_stream
                 {| isConnected := true; chatMessages := []; isAgentTyping := true |}).1
    = true.
Proof.
  split; [reflexivity|].
  exact (agent_message_clears_typing agent_stream
           {| isConnected := true; chatMessages := []; isAgentTyping := true |}
           agent_message eq_refl).
Defined.

(** The listeners of the mounted room. *)
Lemma mounted_listeners :
  listeners mounted_room Connected = [{| fn_id := 3; fn_code := SetIsConnected true |}] /\
  listeners mounted_room Disconnected = [{| fn_id := 4; fn_code := SetIsConnected false |}] /\
  listeners mounted_room TrackPublished = [{| fn_id := 1; fn_code := HandleTrackPublished |}] /\
  listeners mounted_room TrackUnpublished
    = [{| fn_id := 2; fn_code := HandleTrackUnpublished |}].
Proof. repeat split; reflexivity. Qed.

(** What an event does to the mounted component. *)
Lemma emit_mounted em st :
  emit mounted_room em st =
    match em with
    | EmitConnected => setIsConnected true st
    | EmitDisconnected => setIsConnected false st
    | EmitTrackPublished t => handleTrackPublished t st
    | EmitTrackUnpublished t => handleTrackUnpublished t st
    end.
Proof.
  destruct mounted_listeners as (Hc & Hd & Hp & Hu).
  unfold emit. destruct em; simpl; by rewrite ?Hc, ?Hd, ?Hp, ?Hu.
Qed.

Lemma handler_isConnected s st :
  isConnected (handleTranscriptionStream s st).1 = isConnected st.
Proof.
  unfold handleTranscriptionStream. destruct (build_message s) as [m|e]; simpl; [|done].
  by destruct (String.eqb (participant m) "Agent").
Qed.

Lemma handler_typing s st :
  isAgentTyping (handleTranscriptionStream s st).1 = true -> isAgentTyping st = true.
Proof.
  unfold handleTranscriptionStream. destruct (build_message s) as [m|e]; simpl; [|done].
  by destruct (String.eqb (participant m) "Agent").
Qed.

Lemma deliver_cases r topic s st :
  deliver r topic s st = (st, []) \/ deliver r topic s st = handleTranscriptionStream s st.
Proof.
  unfold deliver. destruct (textStreamHandlers r !! topic) as [f|]; [|by left].
  destruct (fn_code f); auto.
Qed.

(** X15. While mounted, the typing indicator can only be on if some remote
    participant published an audio track: no stream, connection event or
    click turns it on. *)
Theorem typing_needs_remote_audio inputs :
  isAgentTyping (run mounted_room inputs initial) = true ->
  exists t, Emits (EmitTrackPublished t) ∈ inputs /\ remote_audio t.
Proof.
  assert (forall inputs st,
            isAgentTyping (run mounted_room inputs st) = true ->
            isAgentTyping st = true \/
            exists t, Emits (EmitTrackPublished t) ∈ inputs /\ remote_audio t) as Hgen.
  { clear inputs. unfold run.
    induction inputs as [|i inputs IH]; intros st Hon; simpl in *; [by left|].
    destruct (IH _ Hon) as [Hstep | (t & Hin & Ht)];
      [|right; exists t; split; [by apply list_elem_of_further | done]].
    destruct i as [topic s|em|]; simpl in Hstep.
    - left. destruct (deliver_cases mounted_room topic s st) as [Heq | Heq];
        rewrite Heq in Hstep; [done | by eapply handler_typing].
    - rewrite emit_mounted in Hstep. destruct em as [| |t|t]; simpl in Hstep; try by left.
      + unfold handleTrackPublished in Hstep.
        destruct (negb (is_local t) && String.eqb (kind t) "audio") eqn:Hcond; [|by left].
        right. exists t. split; [apply list_elem_of_here|].
        apply andb_true_iff in Hcond as [Hlocal Hkind].
        split; [by apply negb_true_iff | by apply String.eqb_eq].
      + unfold handleTrackUnpublished in Hstep.
        destruct (negb (is_local t) && String.eqb (kind t) "audio"); [done | by left].
    - unfold click_end_call in Hstep. destruct (isConnected st); [done | by left]. }
  intros Hon. destruct (Hgen inputs initial Hon) as [Hinit | Hex]; [discriminate | done].
Qed.

Lemma typing_needs_remote_audio_witness :
  exists t,
    Emits (EmitTrackPublished t)
      ∈ [Emits EmitConnected; Emits (EmitTrackPublished {| kind := "audio"; is_local := false |})]
    /\ remote_audio t.
Proof.
  apply (typing_needs_remote_audio
           [Emits EmitConnected;
            Emits (EmitTrackPublished {| kind := "audio"; is_local := false |})]).
  reflexivity.
Defined.

(** X16. While mounted, the connection flag is whatever the last
    [Connected] or [Disconnected] event said. Streams, track events and the
    End Call click do not move it: after End Call the badge reads
    Connected until the room reports the disconnect. *)
Theorem connection_flag_follows_events inputs st :
  isConnected (run mounted_room inputs st) = last_connection inputs (isConnected st).
Proof.
  unfold run, last_connection. revert st.
  induction inputs as [|i inputs IH]; intros st; simpl; [done|].
  rewrite IH. f_equal.
  destruct i as [topic s|em|]; simpl.
  - destruct (deliver_cases mounted_room topic s st) as [-> | ->];
      [done | apply handler_isConnected].
  - rewrite emit_mounted.
    destruct em as [| |t|t]; simpl; try done;
      unfold handleTrackPublished, handleTrackUnpublished;
      by destruct (negb (is_local t) && String.eqb (kind t) "audio").
  - unfold click_end_call. by destruct (isConnected st) eqn:Hst.
Qed.

(** X17. Ending a call and then hearing the room's [Disconnected] event
    puts the component back exactly where it was when it mounted. *)
Theorem end_call_then_disconnected st :
  isConnected st = true ->
  run mounted_room [EndCall; Emits EmitDisconnected] st = initial.
Proof.
  intros Hst. unfold run. simpl. rewrite emit_mounted.
  unfold click_end_call. by rewrite Hst.
Qed.

Lemma end_call_then_disconnected_witness :
  isConnected in_call = true /\
  run mounted_room [EndCall; Emits EmitDisconnected] in_call = initial.
Proof. split; [reflexivity | apply end_call_then_disconnected; reflexivity]. Defined.

(** X18. The transcript panel shows the placeholder exactly when there is
    no message, and the typing row exactly when the agent is typing and
    there is at least one message: on an empty transcript the indicator is
    not drawn. *)
Theorem typing_row_needs_a_message st :
  (Placeholder ∈ transcript_rows st <-> chatMessages st = []) /\
  (TypingRow ∈ transcript_rows st <->
   isAgentTyping st = true /\ chatMessages st <> []).
Proof.
  assert (forall l, (Placeholder ∉ map message_row l) /\ (TypingRow ∉ map message_row l))
    as Hrows.
  { intros l. split; intros (m & Hm & _)%list_elem_of_fmap;
      unfold message_row in Hm; by destruct (String.eqb _ _). }
  unfold transcript_rows. destruct (chatMessages st) as [|m l] eqn:Hl; simpl.
  - split; split; try done.
    + intros _. apply list_elem_of_here.
    + intros Hin. apply list_elem_of_singleton in Hin. discriminate.
    + intros [_ ?]. done.
  - destruct (Hrows (m :: l)) as [Hp Ht]. simpl in Hp, Ht. split; split.
    + intros Hin. exfalso.
      change (message_row m :: map message_row l ++ (if isAgentTyping st then [TypingRow] else []))
        with ((message_row m :: map message_row l) ++ (if isAgentTyping st then [TypingRow] else []))
        in Hin.
      apply elem_of_app in Hin as [Hin | Hin]; [done|].
      destruct (isAgentTyping st); [|by apply elem_of_nil in Hin].
      apply list_elem_of_singleton in Hin. discriminate.
    + discriminate.
    + intros Hin.
      change (message_row m :: map message_row l ++ (if isAgentTyping st then [TypingRow] else []))
        with ((message_row m :: map message_row l) ++ (if isAgentTyping st then [TypingRow] else []))
        in Hin.
      apply elem_of_app in Hin as [Hin | Hin]; [done|].
      destruct (isAgentTyping st); [done | by apply elem_of_nil in Hin].
    + intros [-> _]. apply list_elem_of_further, elem_of_app. right.
      apply list_elem_of_here.
Qed.

(** X19. In every state the component reaches the panel has between one
    and fifty-one rows, and below the typing row, if any, the rows are the
    messages in transcript order. *)
Theorem transcript_rows_bounded r inputs :
  1 <= length (transcript_rows (run r inputs initial)) <= 51 /\
  (chatMessages (run r inputs initial) <> [] ->
   take (length (chatMessages (run r inputs initial)))
        (transcript_rows (run r inputs initial))
     = map message_row (chatMessages (run r inputs initial))).
Proof.
  pose proof (run_capped r inputs) as Hcap.
  unfold transcript_rows.
  destruct (chatMessages (run r inputs initial)) as [|m l] eqn:Hl.
  - simpl. split; [lia | done].
  - cbn [length Nat.eqb]. split.
    + rewrite length_app, length_map.
      destruct (isAgentTyping _); simpl in *; lia.
    + intros _. apply take_app_length'. by rewrite length_map.
Qed.

Lemma transcript_rows_bounded_witness :
  chatMessages in_call <> [] /\
  take (length (chatMessages in_call)) (transcript_rows in_call)
    = map message_row (chatMessages in_call).
Proof.
  split; [vm_compute; discriminate|].
  apply (proj2 (transcript_rows_bounded mounted_room
                  [Emits EmitConnected; Incoming "lk.transcription" agent_stream])).
  vm_compute. discriminate.
Defined.

(** X20. The mute button asks for the opposite of what the participant
    reports and is labelled for that request. With no local participant it
    reads Unmute and a click calls nothing. *)
Theorem mute_button_matches_toggle st localParticipant :
  match localParticipant with
  | Some enabled =>
      toggleMute localParticipant = [SetMicrophoneEnabled (negb enabled)] /\
      mute_label (controls st localParticipant) = (if enabled then "Mute" else "Unmute")
  | None =>
      toggleMute localParticipant = [] /\
      mute_label (controls st localParticipant) = "Unmute"
  end /\
  mute_disabled (controls st localParticipant) = negb (isConnected st) /\
  end_call_disabled (controls st localParticipant) = negb (isConnected st).
Proof. by destruct localParticipant as [[]|]. Qed.

End ComponentFacts.

(** ** More on mounting and unmounting *)
Module LifecycleFacts.
Import Js LiveKit VoiceChatRoom Lifecycle.

Lemma remove_first_absent (f : fn) (l : list fn) :
  (forall g, g ∈ l -> fn_id g <> fn_id f) -> remove_first f l = l.
Proof.
  induction l as [|g l IH]; intros Hl; simpl; [done|].
  unfold same_fn. destruct (Nat.eqb_spec (fn_id g) (fn_id f)) as [Heq|_].
  - destruct (Hl g); [apply list_elem_of_here | done].
  - f_equal. apply IH. intros g' Hg'. apply Hl. by apply list_elem_of_further.
Qed.

(** [off] with a function that was never added changes nothing. *)
Lemma reverse_remove_absent (f : fn) (l : list fn) :
  (forall g, g ∈ l -> fn_id g <> fn_id f) ->
  reverse (remove_first f (reverse l)) = l.
Proof.
  intros Hl. rewrite remove_first_absent; [apply reverse_involutive|].
  intros g Hg. apply Hl. by apply elem_of_reverse.
Qed.

(** [off] right after [on] with the same function undoes it. *)
Lemma reverse_remove_last (f : fn) (l : list fn) :
  reverse (remove_first f (reverse (l ++ [f]))) = l.
Proof.
  rewrite reverse_snoc. simpl. unfold same_fn. rewrite Nat.eqb_refl.
  apply reverse_involutive.
Qed.

(** The heap after a mount with the SDK's text streams. *)
Lemma mounted_heap h :
  next_fn (mounted h) = next_fn h + 5 /\
  (forall e, listeners (room (mounted h)) e
             = listeners (room h) e ++ [mount_listener (next_fn h) e]) /\
  textStreamHandlers (room (mounted h)) =
    match textStreamHandlers (room h) !! "lk.transcription" with
    | Some _ => textStreamHandlers (room h)
    | None => <["lk.transcription" :=
                 {| fn_id := next_fn h; fn_code := HandleTranscriptionStream |}]>
                (textStreamHandlers (room h))
    end /\
  console (mounted h) = console h ++
    match textStreamHandlers (room h) !! "lk.transcription" with
    | Some _ => [ConsoleWarn "Transcription handler already registered:"
                   "TypeError: a text stream handler has already been set"]
    | None => []
    end.
Proof.
  unfold mounted, effect, mbind, M_bind, try_catch, room_call, new_fn, room_do,
    console_warn.
  simpl. destruct (textStreamHandlers (room h) !! "lk.transcription"); simpl.
  - split; [lia|]. split; [|done].
    intros []; simpl; do 2 f_equal; f_equal; lia.
  - split; [lia|]. split; [|by rewrite app_nil_r].
    intros []; simpl; do 2 f_equal; f_equal; lia.
Qed.

(** The heap after a mount and the unmount that follows it. *)
Lemma cycle_heap h :
  next_fn (cycles 1 h) = next_fn h + 7 /\
  (forall e, listeners (room (cycles 1 h)) e =
     reverse (remove_first
                (match e with
                 | Connected => {| fn_id := next_fn h + 5; fn_code := SetIsConnected true |}
                 | Disconnected => {| fn_id := next_fn h + 6; fn_code := SetIsConnected false |}
                 | _ => mount_listener (next_fn h) e
                 end)
                (reverse (listeners (room h) e ++ [mount_listener (next_fn h) e])))) /\
  textStreamHandlers (room (cycles 1 h)) !! "lk.transcription" = None /\
  console (cycles 1 h) = console (mounted h).
Proof.
  unfold cycles, mounted, mount_unmount, effect, cleanup, mbind, M_bind, try_catch,
    room_call, new_fn, room_do, console_warn.
  simpl. destruct (textStreamHandlers (room h) !! "lk.transcription"); simpl.
  - split; [lia|]. split; [|split; [apply lookup_delete_eq | done]].
    intros []; simpl; repeat f_equal; lia.
  - split; [lia|]. split; [|split; [apply lookup_delete_eq | done]].
    intros []; simpl; repeat f_equal; lia.
Qed.

(** X21. One mount followed by its unmount, on a room whose listeners are
    all older than the component: the two track listeners are taken off
    again and the stream handler is unregistered, but the [Connected] and
    the [Disconnected] listener stay, so each of those two lists has grown
    by one. The room is again one whose listeners are all older than the
    next component. *)
Theorem mount_unmount_leaks_two h :
  well_formed h ->
  listeners (room (cycles 1 h)) Connected
    = listeners (room h) Connected ++ [mount_listener (next_fn h) Connected] /\
  listeners (room (cycles 1 h)) Disconnected
    = listeners (room h) Disconnected ++ [mount_listener (next_fn h) Disconnected] /\
  listeners (room (cycles 1 h)) TrackPublished = listeners (room h) TrackPublished /\
  listeners (room (cycles 1 h)) TrackUnpublished = listeners (room h) TrackUnpublished /\
  textStreamHandlers (room (cycles 1 h)) !! "lk.transcription" = None /\
  well_formed (cycles 1 h).
Proof.
  intros Hwf. destruct (cycle_heap h) as (Hnext & Hlisteners & Hhandler & _).
  assert (forall e g, g ∈ listeners (room h) e ++ [mount_listener (next_fn h) e] ->
                      fn_id g < next_fn h + 5) as Hold.
  { intros e g [Hg | Hg%list_elem_of_singleton]%elem_of_app.
    - specialize (Hwf e g Hg). lia.
    - subst g. destruct e; simpl; lia. }
  assert (listeners (room (cycles 1 h)) Connected
          = listeners (room h) Connected ++ [mount_listener (next_fn h) Connected]) as Hc.
  { rewrite Hlisteners. apply reverse_remove_absent.
    intros g Hg. specialize (Hold _ _ Hg). simpl. lia. }
  assert (listeners (room (cycles 1 h)) Disconnected
          = listeners (room h) Disconnected ++ [mount_listener (next_fn h) Disconnected]) as Hd.
  { rewrite Hlisteners. apply reverse_remove_absent.
    intros g Hg. specialize (Hold _ _ Hg). simpl. lia. }
  assert (listeners (room (cycles 1 h)) TrackPublished = listeners (room h) TrackPublished)
    as Hp by (rewrite Hlisteners; apply reverse_remove_last).
  assert (listeners (room (cycles 1 h)) TrackUnpublished = listeners (room h) TrackUnpublished)
    as Hu by (rewrite Hlisteners; apply reverse_remove_last).
  repeat (split; [done|]).
  intros e g Hg. rewrite Hnext.
  destruct e; rewrite ?Hc, ?Hd, ?Hp, ?Hu in Hg;
    try (specialize (Hold _ _ Hg); lia); specialize (Hwf _ _ Hg); lia.
Qed.

Lemma fresh_heap_well_formed : well_formed fresh_heap.
Proof. intros e g Hg. simpl in Hg. by apply elem_of_nil in Hg. Qed.

Lemma mount_unmount_leaks_two_witness :
  listeners (room (cycles 1 fresh_heap)) Connected
    = [] ++ [mount_listener 0 Connected] /\
  listeners (room (cycles 1 fresh_heap)) Disconnected
    = [] ++ [mount_listener 0 Disconnected] /\
  listeners (room (cycles 1 fresh_heap)) TrackPublished = [] /\
  listeners (room (cycles 1 fresh_heap)) TrackUnpublished = [] /\
  textStreamHandlers (room (cycles 1 fresh_heap)) !! "lk.transcription" = None /\
  well_formed (cycles 1 fresh_heap).
Proof. exact (mount_unmount_leaks_two fresh_heap fresh_heap_well_formed). Defined.

Lemma cycles_S n h : cycles (S n) h = cycles n (cycles 1 h).
Proof. reflexivity. Qed.

(** X22. The leak adds up: after [n] rounds of mounting and unmounting the
    room carries [n] more [Connected] and [n] more [Disconnected]
    listeners than before, and the same track listeners as before. *)
Theorem cycles_accumulate n h :
  well_formed h ->
  length (listeners (room (cycles n h)) Connected)
    = length (listeners (room h) Connected) + n /\
  length (listeners (room (cycles n h)) Disconnected)
    = length (listeners (room h) Disconnected) + n /\
  listeners (room (cycles n h)) TrackPublished = listeners (room h) TrackPublished /\
  listeners (room (cycles n h)) TrackUnpublished = listeners (room h) TrackUnpublished.
Proof.
  revert h. induction n as [|n IH]; intros h Hwf.
  - simpl. repeat split; lia.
  - rewrite cycles_S.
    destruct (mount_unmount_leaks_two h Hwf) as (Hc & Hd & Hp & Hu & _ & Hwf').
    destruct (IH _ Hwf') as (IHc & IHd & IHp & IHu).
    rewrite IHc, IHd, IHp, IHu, Hc, Hd, Hp, Hu, !length_app. simpl.
    repeat split; lia.
Qed.

Lemma cycles_accumulate_witness :
  length (listeners (room (cycles 3 fresh_heap)) Connected) = 0 + 3 /\
  length (listeners (room (cycles 3 fresh_heap)) Disconnected) = 0 + 3 /\
  listeners (room (cycles 3 fresh_heap)) TrackPublished = [] /\
  listeners (room (cycles 3 fresh_heap)) TrackUnpublished = [].
Proof. exact (cycles_accumulate 3 fresh_heap fresh_heap_well_formed). Defined.

(** X23. Mounting on a room whose topic already has a handler: the
    registration throws, the handler that was there stays, the console
    gets the warning; and the unmount then unregisters the topic all the
    same, taking away a handler the component never set. *)
Theorem taken_topic_is_kept_then_removed h f :
  textStreamHandlers (room h) !! "lk.transcription" = Some f ->
  textStreamHandlers (room (mounted h)) !! "lk.transcription" = Some f /\
  console (mounted h) = console h ++
    [ConsoleWarn "Transcription handler already registered:"
       "TypeError: a text stream handler has already been set"] /\
  textStreamHandlers (room (cycles 1 h)) !! "lk.transcription" = None.
Proof.
  intros Htaken.
  destruct (mounted_heap h) as (_ & _ & Hhandlers & Hconsole).
  destruct (cycle_heap h) as (_ & _ & Hgone & _).
  rewrite Htaken in Hhandlers, Hconsole.
  by rewrite Hhandlers, Hconsole.
Qed.

Lemma taken_topic_is_kept_then_removed_witness :
  textStreamHandlers (room (mounted taken_heap)) !! "lk.transcription"
    = Some {| fn_id := 0; fn_code := HandleTranscriptionStream |} /\
  console (mounted taken_heap) = [] ++
    [ConsoleWarn "Transcription handler already registered:"
       "TypeError: a text stream handler has already been set"] /\
  textStreamHandlers (room (cycles 1 taken_heap)) !! "lk.transcription" = None.
Proof.
  exact (taken_topic_is_kept_then_removed taken_heap
           {| fn_id := 0; fn_code := HandleTranscriptionStream |} eq_refl).
Defined.

(** X24. Mounting on a room whose topic is free: from then on a stream on
    ['lk.transcription'] runs the component's handler, and the handlers
    of all other topics are as they were. *)
Theorem mounted_handler_receives_streams h :
  textStreamHandlers (room h) !! "lk.transcription" = None ->
  (forall s st,
     deliver (room (mounted h)) "lk.transcription" s st = handleTranscriptionStream s st) /\
  (forall topic, topic <> "lk.transcription" ->
     textStreamHandlers (room (mounted h)) !! topic = textStreamHandlers (room h) !! topic).
Proof.
  intros Hfree. destruct (mounted_heap h) as (_ & _ & Hhandlers & _).
  rewrite Hfree in Hhandlers. split.
  - intros s st. unfold deliver. by rewrite Hhandlers, lookup_insert_eq.
  - intros topic Hne. rewrite Hhandlers. by apply lookup_insert_ne.
Qed.

Lemma mounted_handler_receives_streams_witness :
  deliver (room (mounted fresh_heap)) "lk.transcription" agent_stream initial
    = handleTranscriptionStream agent_stream initial.
Proof.
  apply (proj1 (mounted_handler_receives_streams fresh_heap eq_refl)).
Defined.

End LifecycleFacts.
